(** * SecureDNS: the UDP-to-DoH forwarding proxy of [doh_service.go]

    A shallow embedding of [doh_service.go] and the properties of its
    per-query decision procedure ([ServeDNS]), its forwarder
    ([QueryOverHTTPS], [makeHttpsRequest]) and its bootstrap ([RunDNS]).

    Go pointers to [dns.Msg] are addresses into a store ([heap]); the
    messages the handler shares (the bootstrap answer [Host], the cached
    replies) are therefore updated in place, as in the program.  Whatever
    the program obtains from outside (wire codec, HTTPS exchange, plain DNS
    exchange, wall clock, random ids) is read from an environment [Env] of
    oracles, indexed by the number of the call.  Every call to a
    collaborator is recorded in a trace of [Event]s.  Handler invocations
    are modelled one after the other. *)

From Stdlib Require Import ZArith String List Lia.
From stdpp Require Import gmap strings list fin_maps pretty.
Import Stdlib.Init.Byte.

Local Open Scope string_scope.
Local Open Scope list_scope.
Local Open Scope Z_scope.

(** ** Values *)

Abbreviation bytes := (list Init.Byte.byte).
Abbreviation ptr := nat (only parsing).

(** Go's [error] interface: the package's own [DohError] and the errors
    that the libraries (net/http, io, dns) hand back. *)
Inductive error : Type :=
| DohError (msg : string)
| LibError (msg : string).

Definition Error (e : error) : string :=
  match e with
  | DohError msg => msg
  | LibError msg => msg
  end.

Definition newErr (msg : string) : error := DohError msg.

Definition CLOUDFLARE_DNS : string := "1.1.1.1:53".
Definition CLOUDFLARE_DOH_HOST : string := "cloudflare-dns.com.".
Definition CLOUDFLARE_DOH_URL : string := "https://cloudflare-dns.com/dns-query".

(** ** The [dns] library's message, as far as the program looks into it *)

Definition TypeA : Z := 1.
Definition ClassINET : Z := 1.
Definition OpcodeQuery : Z := 0.
Definition RcodeSuccess : Z := 0.
Definition RcodeServerFailure : Z := 2.

Record DnsQuestion : Type := mkQuestion {
  Name : string;
  Qtype : Z;
  Qclass : Z
}.

Record RR : Type := mkRR {
  rr_name : string;
  rr_type : Z;
  rr_class : Z;
  rr_ttl : Z;
  rr_data : bytes
}.

Record Msg : Type := mkMsg {
  Id : Z;
  Response : bool;
  Opcode : Z;
  Authoritative : bool;
  Truncated : bool;
  RecursionDesired : bool;
  RecursionAvailable : bool;
  Zero : bool;
  AuthenticatedData : bool;
  CheckingDisabled : bool;
  Rcode : Z;
  Question : list DnsQuestion;
  Answer : list RR;
  Ns : list RR;
  Extra : list RR
}.

(** [new(dns.Msg)]: every field at its zero value. *)
Definition zeroMsg : Msg :=
  mkMsg 0 false 0 false false false false false false false 0 [] [] [] [].

(** [Msg.SetReply] of the dns library: the receiver becomes a reply
    to [request].  Identifier, response bit, opcode, the rd/cd bits (for a
    standard query), the response code and the first question are
    overwritten; the three record sections are left as they are. *)
Definition SetReply (dns request : Msg) : Msg :=
  let op := Opcode request in
  {| Id := Id request;
     Response := true;
     Opcode := op;
     Authoritative := Authoritative dns;
     Truncated := Truncated dns;
     RecursionDesired :=
       if op =? OpcodeQuery then RecursionDesired request
       else RecursionDesired dns;
     RecursionAvailable := RecursionAvailable dns;
     Zero := Zero dns;
     AuthenticatedData := AuthenticatedData dns;
     CheckingDisabled :=
       if op =? OpcodeQuery then CheckingDisabled request
       else CheckingDisabled dns;
     Rcode := RcodeSuccess;
     Question :=
       match Question request with
       | q :: _ => [q]
       | [] => Question dns
       end;
     Answer := Answer dns;
     Ns := Ns dns;
     Extra := Extra dns |}.

Definition withRcode (m : Msg) (rcode : Z) : Msg :=
  {| Id := Id m; Response := Response m; Opcode := Opcode m;
     Authoritative := Authoritative m; Truncated := Truncated m;
     RecursionDesired := RecursionDesired m;
     RecursionAvailable := RecursionAvailable m; Zero := Zero m;
     AuthenticatedData := AuthenticatedData m;
     CheckingDisabled := CheckingDisabled m;
     Rcode := rcode;
     Question := Question m; Answer := Answer m; Ns := Ns m;
     Extra := Extra m |}.

(** [Msg.SetRcode]: [SetReply], then the given response code. *)
Definition SetRcode (dns request : Msg) (rcode : Z) : Msg :=
  withRcode (SetReply dns request) rcode.

(** [Msg.SetQuestion]: a fresh identifier, recursion desired, and
    one question of class INET. *)
Definition SetQuestion (dns : Msg) (fresh_id : Z) (z : string) (t : Z) : Msg :=
  {| Id := fresh_id; Response := Response dns; Opcode := Opcode dns;
     Authoritative := Authoritative dns; Truncated := Truncated dns;
     RecursionDesired := true;
     RecursionAvailable := RecursionAvailable dns; Zero := Zero dns;
     AuthenticatedData := AuthenticatedData dns;
     CheckingDisabled := CheckingDisabled dns;
     Rcode := Rcode dns;
     Question := [mkQuestion z t ClassINET];
     Answer := Answer dns; Ns := Ns dns; Extra := Extra dns |}.

(** ** The outside world *)

(** What [ioutil.ReadAll(resp.Body)] gives. *)
Inductive ReadResult : Type :=
| ReadOk (body : bytes)
| ReadFailed (e : error).

(** What [client.Post] gives: an error (network, TLS), or a completed
    exchange with its status code, status line and body. *)
Inductive PostResult : Type :=
| PostFailed (e : error)
| PostDone (StatusCode : Z) (Status : string) (Body : ReadResult).

Record Env : Type := mkEnv {
  env_Pack : Msg -> bytes + error;        (* Msg.Pack *)
  env_Unpack : bytes -> Msg + error;      (* Msg.Unpack, fresh receiver *)
  env_Post : nat -> PostResult;           (* the n-th client.Post *)
  env_Exchange : nat -> Msg + error;      (* the n-th client.Exchange *)
  env_Id : nat -> Z;                      (* the n-th dns.Id() *)
  env_Now : nat -> Z                      (* the n-th time.Now(), in ns *)
}.

(** ** The cache library's store *)

Record Item : Type := mkItem {
  Object : ptr;
  Expiration : Z
}.

Record Cache : Type := mkCache {
  defaultExpiration : Z;
  items : gmap string Item
}.

Definition Second : Z := 1000000000.
Definition Minute : Z := 60 * Second.
Definition Hour : Z := 60 * Minute.

(** ** Handler and server *)

(** The [NameCache] field points to the one cache of the process, which is
    the [cache] component of the [World] below. *)
Record SecHandler : Type := mkSecHandler {
  ServiceType : string;
  Host : option ptr
}.

Record Server : Type := mkServer {
  Addr : string;
  Net : string;
  Handler : SecHandler
}.

(** ** Calls to collaborators, in the order they happen *)

Inductive Event : Type :=
| EvPack (m : Msg)
| EvPost (url contentType : string) (body : bytes)
| EvBodyClose
| EvUnpack (wire : bytes)
| EvCacheNew (dflt cleanup : Z)
| EvCacheGet (k : string)
| EvCacheSet (k : string) (x : ptr)
| EvPrintf (line : string)
| EvErrorLog (e : error)
| EvErrorLogMsg (msg : string) (e : error)
| EvWriteMsg (m : Msg)
| EvExchange (m : Msg) (address : string)
| EvSleep (d : Z)
| EvListenAndServe (srv : Server).

Record World : Type := mkWorld {
  heap : list Msg;
  cache : Cache;
  ticks : nat;
  posts : nat;
  exchanges : nat;
  trace : list Event
}.

Definition set_heap (h : list Msg) (w : World) : World :=
  mkWorld h (cache w) (ticks w) (posts w) (exchanges w) (trace w).
Definition set_cache (c : Cache) (w : World) : World :=
  mkWorld (heap w) c (ticks w) (posts w) (exchanges w) (trace w).
Definition set_ticks (n : nat) (w : World) : World :=
  mkWorld (heap w) (cache w) n (posts w) (exchanges w) (trace w).
Definition set_posts (n : nat) (w : World) : World :=
  mkWorld (heap w) (cache w) (ticks w) n (exchanges w) (trace w).
Definition set_exchanges (n : nat) (w : World) : World :=
  mkWorld (heap w) (cache w) (ticks w) (posts w) n (trace w).
Definition set_trace (t : list Event) (w : World) : World :=
  mkWorld (heap w) (cache w) (ticks w) (posts w) (exchanges w) t.

(** ** A state monad with abort

    [None] is a run that gives no result: a nil or dangling pointer
    dereference (a Go panic), or a loop that ran out of fuel. *)

Definition M (A : Type) : Type := World -> option (A * World).

Definition ret {A : Type} (a : A) : M A := fun w => Some (a, w).

Definition bind {A B : Type} (m : M A) (f : A -> M B) : M B :=
  fun w =>
    match m w with
    | Some (a, w') => f a w'
    | None => None
    end.

Definition abort {A : Type} : M A := fun _ => None.

Notation "'do' x <- m ; k" := (bind m (fun x => k))
  (at level 10, x name, m at level 100, k at level 200).
Notation "'run' m ; k" := (bind m (fun _ => k))
  (at level 10, m at level 100, k at level 200).

Definition emit (e : Event) : M unit :=
  fun w => Some (tt, set_trace (trace w ++ [e]) w).

(** [new(dns.Msg)] *)
Definition newMsg (m : Msg) : M ptr :=
  fun w => Some (length (heap w), set_heap (heap w ++ [m]) w).

Definition load (p : option ptr) : M Msg :=
  fun w =>
    match p with
    | Some a =>
        match heap w !! a with
        | Some m => Some (m, w)
        | None => None
        end
    | None => None
    end.

Definition store (p : option ptr) (m : Msg) : M unit :=
  fun w =>
    match p with
    | Some a =>
        if decide (a < length (heap w))%nat
        then Some (tt, set_heap (<[a:=m]> (heap w)) w)
        else None
    | None => None
    end.

(** ** The program *)

Section Program.

Variable env : Env.

(** [time.Now().UnixNano()] *)
Definition time_Now : M Z :=
  fun w => Some (env_Now env (ticks w), set_ticks (S (ticks w)) w).

Definition time_Sleep (d : Z) : M unit := emit (EvSleep d).

Definition log_Printf (line : string) : M unit := emit (EvPrintf line).

(** The package's error log ([WriteErrorLog], [WriteErrorLogMsg]): the
    calls are recorded, what the log does with them is not part of this
    file of the package. *)
Definition WriteErrorLog (e : error) : M unit := emit (EvErrorLog e).

Definition WriteErrorLogMsg (msg : string) (e : error) : M unit :=
  emit (EvErrorLogMsg msg e).

(** *** The cache library: [New], [Get], [Set], [SetDefault] *)

Definition DefaultExpiration : Z := 0.

Definition get_cache : M Cache := fun w => Some (cache w, w).

Definition put_cache (c : Cache) : M unit := fun w => Some (tt, set_cache c w).

Definition cache_New (dflt cleanup : Z) : M unit :=
  run emit (EvCacheNew dflt cleanup);
  let de := if dflt =? 0 then -1 else dflt in
  put_cache (mkCache de ∅).

Definition cache_Get (k : string) : M (option ptr) :=
  run emit (EvCacheGet k);
  do c <- get_cache;
  match items c !! k with
  | None => ret None
  | Some item =>
      if 0 <? Expiration item then
        do now <- time_Now;
        if Expiration item <? now then ret None
        else ret (Some (Object item))
      else ret (Some (Object item))
  end.

Definition cache_Set (k : string) (x : ptr) (d : Z) : M unit :=
  run emit (EvCacheSet k x);
  do c <- get_cache;
  let d := if d =? DefaultExpiration then defaultExpiration c else d in
  do e <- (if 0 <? d then (do now <- time_Now; ret (now + d)) else ret 0);
  put_cache (mkCache (defaultExpiration c) (<[k := mkItem x e]> (items c))).

Definition cache_SetDefault (k : string) (x : ptr) : M unit :=
  cache_Set k x DefaultExpiration.

(** *** The dns library on stored messages *)

Definition msg_SetReply (p : option ptr) (r : Msg) : M unit :=
  do m <- load p;
  store p (SetReply m r).

Definition msg_SetRcode (p : option ptr) (r : Msg) (rcode : Z) : M unit :=
  do m <- load p;
  store p (SetRcode m r rcode).

(** [w.WriteMsg(m)]: the message as it is at the time of the call. *)
Definition WriteMsg (p : option ptr) : M unit :=
  do m <- load p;
  emit (EvWriteMsg m).

(** [dns.HandleFailed] *)
Definition HandleFailed (r : Msg) : M unit :=
  do m <- newMsg zeroMsg;
  run msg_SetRcode (Some m) r RcodeServerFailure;
  WriteMsg (Some m).

(** *** [makeHttpsRequest] *)

Definition client_Post (url contentType : string) (body : bytes) : M PostResult :=
  run emit (EvPost url contentType body);
  fun w => Some (env_Post env (posts w), set_posts (S (posts w)) w).

Definition makeHttpsRequest (wire : bytes) : M (option bytes * option error) :=
  do resp <- client_Post CLOUDFLARE_DOH_URL "application/dns-udpwireformat" wire;
  match resp with
  | PostDone StatusCode Status Body =>
      if negb (StatusCode =? 200) then
        run emit EvBodyClose;
        ret (None, Some (newErr ("HTTP error code " +:+ Status)))
      else
        match Body with
        | ReadOk respBody =>
            run emit EvBodyClose;
            ret (Some respBody, None)
        | ReadFailed err =>
            run emit EvBodyClose;
            ret (None, Some err)
        end
  | PostFailed err => ret (None, Some err)
  end.

(** *** [QueryOverHTTPS] *)

Definition msg_Pack (r : Msg) : M (bytes + error) :=
  run emit (EvPack r);
  ret (env_Pack env r).

(** [m.Unpack(resp)]: on success the receiver holds the decoded message;
    on failure the receiver is dropped by the caller. *)
Definition msg_Unpack (m : ptr) (resp : bytes) : M (option error) :=
  run emit (EvUnpack resp);
  match env_Unpack env resp with
  | inl decoded => run store (Some m) decoded; ret None
  | inr err => ret (Some err)
  end.

Definition QueryOverHTTPS (r : Msg) : M (option ptr * option error) :=
  do packed <- msg_Pack r;
  match packed with
  | inl wire =>
      do res <- makeHttpsRequest wire;
      match res with
      | (resp, None) =>
          do m <- newMsg zeroMsg;
          do err <- msg_Unpack m (default [] resp);
          match err with
          | None => ret (Some m, None)
          | Some _ => ret (None, Some (newErr "Can't unpack message from wireformat."))
          end
      | (_, Some _) => ret (None, Some (newErr "HTTPS Request failed."))
      end
  | inr _ => ret (None, Some (newErr "Can't pack message from wireformat."))
  end.

(** *** [ServeDNS] *)

Definition relay (r : Msg) : M unit :=
  do res <- QueryOverHTTPS r;
  match res with
  | (respMsg, None) =>
      run msg_SetReply respMsg r;
      WriteMsg respMsg
  | (_, Some _) => HandleFailed r
  end.

Definition ServeDNS (s : SecHandler) (r : Msg) : M unit :=
  match Question r with
  | q0 :: _ =>
      if Qtype q0 =? TypeA then
        if String.eqb (Name q0) CLOUDFLARE_DOH_HOST then
          run msg_SetReply (Host s) r;
          WriteMsg (Host s)
        else
          let requestedName := Name q0 in
          do x <- cache_Get requestedName;
          match x with
          | Some cachedMsg =>
              run msg_SetReply (Some cachedMsg) r;
              WriteMsg (Some cachedMsg)
          | None =>
              do res <- QueryOverHTTPS r;
              match res with
              | (Some respMsg, None) =>
                  run cache_SetDefault requestedName respMsg;
                  run msg_SetReply (Some respMsg) r;
                  WriteMsg (Some respMsg)
              | (None, None) => abort (* nil reply: [respMsg.SetReply] panics *)
              | (_, Some err) =>
                  run log_Printf ("requested name = " +:+ requestedName);
                  run WriteErrorLog err;
                  HandleFailed r
              end
          end
      else relay r
  | [] => relay r
  end.

(** *** [getDohHostAddr] *)

Definition dns_Id : M Z := fun w => Some (env_Id env (exchanges w), w).

Definition msg_SetQuestion (p : option ptr) (z : string) (t : Z) : M unit :=
  do m <- load p;
  do id <- dns_Id;
  store p (SetQuestion m id z t).

(** [client.Exchange]: the reply is a message of its own, or nil with an
    error. *)
Definition client_Exchange (m : option ptr) (address : string)
  : M (option ptr * option error) :=
  do q <- load m;
  run emit (EvExchange q address);
  do res <- (fun w => Some (env_Exchange env (exchanges w),
                            set_exchanges (S (exchanges w)) w));
  match res with
  | inl reply => do r <- newMsg reply; ret (Some r, None)
  | inr err => ret (None, Some err)
  end.

Definition getDohHostAddr : M (option ptr * option error) :=
  do m <- newMsg zeroMsg;
  run msg_SetQuestion (Some m) CLOUDFLARE_DOH_HOST TypeA;
  client_Exchange (Some m) CLOUDFLARE_DNS.

(** *** [RunDNS] *)

Definition bootstrap_failed : string :=
  "Failed to obtain Cloudflare's DOH server address.".

(** The loop [for i := 1; i < 6; i++] of [RunDNS], from the value of [i]
    and the current [h], [e]. *)
Fixpoint retry_loop (fuel : nat) (i : Z) (h : option ptr) (e : option error)
  : M (option ptr * option error) :=
  if i <? 6 then
    match fuel with
    | O => abort
    | S fuel' =>
        run time_Sleep (Second * 1);
        run log_Printf ("retry " +:+ pretty i +:+ "...");
        do he <- getDohHostAddr;
        match snd he with
        | Some err =>
            run WriteErrorLogMsg bootstrap_failed err;
            retry_loop fuel' (i + 1) (fst he) (snd he)
        | None => ret he
        end
    end
  else ret (h, e).

(** From the construction of the handler to the end of [RunDNS].  The
    goroutine that runs [srv.ListenAndServe] is recorded when it is
    started; the returned server stands for the stop function, which
    closes over it. *)
Definition start_server (port : Z) (h : option ptr)
  : M (option Server * option error) :=
  run cache_New (1 * Hour) (10 * Minute);
  let handler := mkSecHandler "UDP" h in
  let srv := mkServer (":" +:+ pretty port) "udp" handler in
  run emit (EvListenAndServe srv);
  ret (Some srv, None).

Definition RunDNS (port : Z) : M (option Server * option error) :=
  do he <- getDohHostAddr;
  match snd he with
  | Some err =>
      run WriteErrorLogMsg bootstrap_failed err;
      do he' <- retry_loop 5 1 (fst he) (snd he);
      match snd he' with
      | Some _ =>
          ret (None, Some (newErr (bootstrap_failed +:+
                                   " The DNS service could not be started.")))
      | None => start_server port (fst he')
      end
  | None => start_server port (fst he)
  end.

End Program.

(** ** Sample environments and queries *)

Definition addr_rr (name : string) (a b c d : Init.Byte.byte) : RR :=
  mkRR name TypeA ClassINET 300 [a; b; c; d].

Definition query (id : Z) (name : string) (qtype : Z) : Msg :=
  mkMsg id false 0 false false true false false false false 0
        [mkQuestion name qtype ClassINET] [] [] [].

Definition host_reply : Msg :=
  mkMsg 4660 true 0 false false true true false false false 0
        [mkQuestion CLOUDFLARE_DOH_HOST TypeA ClassINET]
        [addr_rr CLOUDFLARE_DOH_HOST x68 x10 xf8 xf9] [] [].

Definition example_reply : Msg :=
  mkMsg 0 true 0 false false true true false false false 0
        [mkQuestion "example.com." TypeA ClassINET]
        [addr_rr "example.com." x5d xb8 xd8 x22] [] [].

(** An upstream that says "no such name" (response code 3). *)
Definition nxdomain_reply : Msg :=
  mkMsg 0 true 0 false false true true false false false 3
        [mkQuestion "nosuch.example." TypeA ClassINET] [] [] [].

(** The codec of the samples: a message is one byte, its identifier's low
    bits, and a message whose first question has the empty name does not
    encode; the byte [x03] decodes to [nxdomain_reply], [xff] does not
    decode, any other wire to [example_reply]. *)
Definition sample_Pack (m : Msg) : bytes + error :=
  match Question m with
  | {| Name := EmptyString |} :: _ =>
      inr (LibError "dns: domain must be fully qualified")
  | _ =>
      inl [match Id m mod 4 with 0 => x00 | 1 => x01 | 2 => x02 | _ => x03 end]
  end.

Definition sample_Unpack (wire : bytes) : Msg + error :=
  match wire with
  | [xff] => inr (LibError "dns: overflow unpacking")
  | [x03] => inl nxdomain_reply
  | _ => inl example_reply
  end.

(** Every exchange succeeds. *)
Definition env_up : Env :=
  mkEnv sample_Pack sample_Unpack
        (fun _ => PostDone 200 "200 OK" (ReadOk [x00]))
        (fun _ => inl host_reply)
        (fun n => Z.of_nat n + 1)
        (fun n => Z.of_nat n * Second).

(** The upstream answers every POST with "no such name". *)
Definition env_nx : Env :=
  mkEnv sample_Pack sample_Unpack
        (fun _ => PostDone 200 "200 OK" (ReadOk [x03]))
        (fun _ => inl host_reply)
        (fun n => Z.of_nat n + 1)
        (fun n => Z.of_nat n * Second).

(** Nothing is reachable: no POST, no plain DNS exchange. *)
Definition env_down : Env :=
  mkEnv sample_Pack sample_Unpack
        (fun _ => PostFailed (LibError "dial tcp: network is unreachable"))
        (fun _ => inr (LibError "read udp: i/o timeout"))
        (fun n => Z.of_nat n + 1)
        (fun n => Z.of_nat n * Second).

(** The bootstrap works; the upstream answers the first POST with 502 and
    the later ones with a body that does not decode. *)
Definition env_502 : Env :=
  mkEnv sample_Pack sample_Unpack
        (fun n => match n with
                  | O => PostDone 502 "502 Bad Gateway" (ReadOk [])
                  | S _ => PostDone 200 "200 OK" (ReadOk [xff])
                  end)
        (fun _ => inl host_reply)
        (fun n => Z.of_nat n + 1)
        (fun n => Z.of_nat n * Second).

(** The plain DNS exchange fails [k] times, then succeeds. *)
Definition env_late (k : nat) : Env :=
  mkEnv sample_Pack sample_Unpack
        (fun _ => PostDone 200 "200 OK" (ReadOk [x00]))
        (fun n => if (n <? k)%nat then inr (LibError "read udp: i/o timeout")
                  else inl host_reply)
        (fun n => Z.of_nat n + 1)
        (fun n => Z.of_nat n * Second).

(** A bootstrap reply without an address: the plain resolver answers
    with server failure (response code 2) and no record. *)
Definition empty_host_reply : Msg :=
  mkMsg 4660 true 0 false false true true false false false 2
        [mkQuestion CLOUDFLARE_DOH_HOST TypeA ClassINET] [] [] [].

Definition env_no_address : Env :=
  mkEnv sample_Pack sample_Unpack
        (fun _ => PostDone 200 "200 OK" (ReadOk [x00]))
        (fun _ => inl empty_host_reply)
        (fun n => Z.of_nat n + 1)
        (fun n => Z.of_nat n * Second).

(** As [env_up], with a clock that jumps two hours at every reading. *)
Definition env_slow : Env :=
  mkEnv sample_Pack sample_Unpack
        (fun _ => PostDone 200 "200 OK" (ReadOk [x00]))
        (fun _ => inl host_reply)
        (fun n => Z.of_nat n + 1)
        (fun n => Z.of_nat n * (2 * 3600000000000)).

(** Nothing is reachable any more, and the clock jumps two hours at every
    reading: what is in the cache has expired. *)
Definition env_stale : Env :=
  mkEnv sample_Pack sample_Unpack
        (fun _ => PostFailed (LibError "dial tcp: network is unreachable"))
        (fun _ => inr (LibError "read udp: i/o timeout"))
        (fun n => Z.of_nat n + 1)
        (fun n => Z.of_nat n * (2 * 3600000000000)).

Definition world0 : World :=
  mkWorld [] (mkCache 0 ∅) 0 0 0 [].

(** ** Reading a run *)

(** The run of a list of queries, one after the other. *)
Fixpoint serve_all (env : Env) (s : SecHandler) (rs : list Msg) : M unit :=
  match rs with
  | [] => ret tt
  | r :: rs' => run ServeDNS env s r; serve_all env s rs'
  end.

Fixpoint count_ev (f : Event -> bool) (t : list Event) : nat :=
  match t with
  | [] => 0%nat
  | e :: t' => ((if f e then 1 else 0) + count_ev f t')%nat
  end.

Definition is_post (e : Event) : bool :=
  match e with EvPost _ _ _ => true | _ => false end.
Definition is_pack (e : Event) : bool :=
  match e with EvPack _ => true | _ => false end.
Definition is_unpack (e : Event) : bool :=
  match e with EvUnpack _ => true | _ => false end.
Definition is_cache_set (e : Event) : bool :=
  match e with EvCacheSet _ _ => true | _ => false end.
Definition is_cache_op (e : Event) : bool :=
  match e with EvCacheGet _ | EvCacheSet _ _ | EvCacheNew _ _ => true | _ => false end.
Definition is_write (e : Event) : bool :=
  match e with EvWriteMsg _ => true | _ => false end.
Definition is_error_log (e : Event) : bool :=
  match e with EvErrorLog _ | EvErrorLogMsg _ _ => true | _ => false end.
Definition is_exchange (e : Event) : bool :=
  match e with EvExchange _ _ => true | _ => false end.
Definition is_sleep (e : Event) : bool :=
  match e with EvSleep _ => true | _ => false end.
Definition is_listen (e : Event) : bool :=
  match e with EvListenAndServe _ => true | _ => false end.
(** The calls a forward can make: codec and transport. *)
Definition is_forward_ev (e : Event) : bool :=
  match e with
  | EvPack _ | EvPost _ _ _ | EvBodyClose | EvUnpack _ => true
  | _ => false
  end.

(** The first question is of type A and asks for the upstream's own name:
    the test of [ServeDNS], lines 73 and 76. *)
Definition first_question_is_host_A (r : Msg) : bool :=
  match Question r with
  | q0 :: _ => (Qtype q0 =? TypeA) && String.eqb (Name q0) CLOUDFLARE_DOH_HOST
  | [] => false
  end.

(** The query is one question, of type A, for the upstream's own name. *)
Definition single_host_A_question (r : Msg) : bool :=
  match Question r with
  | [q0] => (Qtype q0 =? TypeA) && String.eqb (Name q0) CLOUDFLARE_DOH_HOST
  | _ => false
  end.

(** The first question is of type A: the test of line 73. *)
Definition first_question_is_A (r : Msg) : bool :=
  match Question r with
  | q0 :: _ => Qtype q0 =? TypeA
  | [] => false
  end.

(** What [cache_Get] finds for [k] in world [w]: the entry, unless it has
    an expiration that the clock has passed. *)
Definition cache_peek (env : Env) (w : World) (k : string) : option ptr :=
  match items (cache w) !! k with
  | None => None
  | Some item =>
      if 0 <? Expiration item then
        if Expiration item <? env_Now env (ticks w) then None
        else Some (Object item)
      else Some (Object item)
  end.

(** The worlds a handler can run in: its [Host] is a stored message, every
    cached pointer is a stored message, and none of them is [Host]. *)
Definition wf_world (s : SecHandler) (w : World) : Prop :=
  (exists h, Host s = Some h /\ (h < length (heap w))%nat) /\
  (forall k item, items (cache w) !! k = Some item ->
     (Object item < length (heap w))%nat /\ Host s <> Some (Object item)).

(** The fields of a message that [SetReply] does not write. *)
Definition same_records (m m' : Msg) : Prop :=
  Answer m' = Answer m /\ Ns m' = Ns m /\ Extra m' = Extra m /\
  Authoritative m' = Authoritative m /\ Truncated m' = Truncated m /\
  RecursionAvailable m' = RecursionAvailable m /\ Zero m' = Zero m /\
  AuthenticatedData m' = AuthenticatedData m.

(** [ServeDNS] answers [r] from the stored [Host] message alone: it writes
    that message, made a reply to [r], and calls nothing else. *)
Definition answers_from_host (env : Env) (s : SecHandler) (r : Msg) (w : World)
  : Prop :=
  exists h m w',
    Host s = Some h /\ heap w !! h = Some m /\
    ServeDNS env s r w = Some (tt, w') /\
    trace w' = trace w ++ [EvWriteMsg (SetReply m r)] /\
    cache w' = cache w /\ ticks w' = ticks w /\ posts w' = posts w.

(** The query is one that [ServeDNS] forwards: its first question is
    missing or not of type A, or it is of type A for another name than the
    upstream's and [cache_Get] finds no live entry. *)
Definition is_forwarded_query (env : Env) (r : Msg) (w : World) : Prop :=
  first_question_is_A r = false \/
  exists q0 rest,
    Question r = q0 :: rest /\ Qtype q0 = TypeA /\
    Name q0 <> CLOUDFLARE_DOH_HOST /\ cache_peek env w (Name q0) = None.

Definition could_not_start : error :=
  newErr (bootstrap_failed +:+ " The DNS service could not be started.").

(** ** Sample runs *)

(** The handler and the world that [RunDNS] leaves on port 53 when the
    bootstrap succeeds at once. *)
Definition handler0 : SecHandler := mkSecHandler "UDP" (Some 1%nat).

Definition running : World :=
  match RunDNS env_up 53 world0 with
  | Some (_, w) => w
  | None => world0
  end.

(** A query with two questions, the first of them of type A for the
    upstream's name. *)
Definition two_questions : Msg :=
  mkMsg 7 false 0 false false true false false false false 0
        [mkQuestion CLOUDFLARE_DOH_HOST TypeA ClassINET;
         mkQuestion "example.com." 28 ClassINET] [] [] [].

(** The world after one A-type query for [example.com.] has been
    forwarded and cached. *)
Definition warmed : World :=
  match ServeDNS env_up handler0 (query 7 "example.com." TypeA) running with
  | Some (_, w) => w
  | None => running
  end.

(** ** Descriptions of runs *)

Section Runs.

Variable env : Env.

Definition servfail (r : Msg) : Msg := SetRcode zeroMsg r RcodeServerFailure.

(** What [makeHttpsRequest] returns for an outcome of [client.Post]. *)
Definition transport_result (pr : PostResult) : option bytes * option error :=
  match pr with
  | PostFailed err => (None, Some err)
  | PostDone StatusCode Status Body =>
      if StatusCode =? 200 then
        match Body with
        | ReadOk respBody => (Some respBody, None)
        | ReadFailed err => (None, Some err)
        end
      else (None, Some (newErr ("HTTP error code " +:+ Status)))
  end.

Definition transport_events (wire : bytes) (pr : PostResult) : list Event :=
  EvPost CLOUDFLARE_DOH_URL "application/dns-udpwireformat" wire ::
  match pr with
  | PostFailed _ => []
  | PostDone _ _ _ => [EvBodyClose]
  end.

(** The stage at which a forward ends. *)
Inductive Forwarded : Type :=
| PackError
| TransportError
| UnpackError
| Reply (wire resp : bytes) (m : Msg).

(** The forward of [r] when [n] POSTs have been made before: encode, then
    exchange, then decode, up to the first stage that fails. *)
Definition forwarded (r : Msg) (n : nat) : Forwarded :=
  match env_Pack env r with
  | inr _ => PackError
  | inl wire =>
      match transport_result (env_Post env n) with
      | (Some resp, None) =>
          match env_Unpack env resp with
          | inl m => Reply wire resp m
          | inr _ => UnpackError
          end
      | _ => TransportError
      end
  end.

Definition pack_error : error := newErr "Can't pack message from wireformat.".
Definition transport_error : error := newErr "HTTPS Request failed.".
Definition unpack_error : error := newErr "Can't unpack message from wireformat.".

Definition forward_result (r : Msg) (w : World) : option ptr * option error :=
  match forwarded r (posts w) with
  | PackError => (None, Some pack_error)
  | TransportError => (None, Some transport_error)
  | UnpackError => (None, Some unpack_error)
  | Reply _ _ _ => (Some (length (heap w)), None)
  end.

Definition forward_events (r : Msg) (n : nat) : list Event :=
  EvPack r ::
  match env_Pack env r with
  | inr _ => []
  | inl wire =>
      transport_events wire (env_Post env n) ++
      match transport_result (env_Post env n) with
      | (Some resp, None) => [EvUnpack resp]
      | _ => []
      end
  end.

Definition forward_cells (r : Msg) (n : nat) : list Msg :=
  match env_Pack env r with
  | inr _ => []
  | inl wire =>
      match transport_result (env_Post env n) with
      | (Some resp, None) =>
          match env_Unpack env resp with
          | inl m => [m]
          | inr _ => [zeroMsg]
          end
      | _ => []
      end
  end.

Definition forward_posts (r : Msg) (n : nat) : nat :=
  match env_Pack env r with
  | inr _ => n
  | inl _ => S n
  end.

(** [cache_Get] reads the clock when the entry has an expiration. *)
Definition ticks_after_get (w : World) (k : string) : nat :=
  match items (cache w) !! k with
  | Some item => if 0 <? Expiration item then S (ticks w) else ticks w
  | None => ticks w
  end.

(** [cache_SetDefault] at clock reading [t]: the expiration it stores and
    the clock reading after it. *)
Definition expiration_at (c : Cache) (t : nat) : Z :=
  if 0 <? defaultExpiration c then env_Now env t + defaultExpiration c else 0.

Definition ticks_after_set (c : Cache) (t : nat) : nat :=
  if 0 <? defaultExpiration c then S t else t.

(** The six ways through [ServeDNS].
    [Served s r w w' evs]: the handler [s], given [r] in world [w], ends
    in [w'] after the calls [evs]. *)
Inductive Served (s : SecHandler) (r : Msg) (w : World)
  : World -> list Event -> Prop :=
| served_host h m :
    first_question_is_host_A r = true ->
    Host s = Some h ->
    heap w !! h = Some m ->
    Served s r w
      (mkWorld (<[h:=SetReply m r]> (heap w)) (cache w) (ticks w) (posts w)
               (exchanges w) (trace w ++ [EvWriteMsg (SetReply m r)]))
      [EvWriteMsg (SetReply m r)]
| served_hit q0 rest p m :
    Question r = q0 :: rest ->
    Qtype q0 = TypeA ->
    Name q0 <> CLOUDFLARE_DOH_HOST ->
    cache_peek env w (Name q0) = Some p ->
    heap w !! p = Some m ->
    Served s r w
      (mkWorld (<[p:=SetReply m r]> (heap w)) (cache w)
               (ticks_after_get w (Name q0)) (posts w) (exchanges w)
               (trace w ++ [EvCacheGet (Name q0); EvWriteMsg (SetReply m r)]))
      [EvCacheGet (Name q0); EvWriteMsg (SetReply m r)]
| served_miss q0 rest wire resp m :
    Question r = q0 :: rest ->
    Qtype q0 = TypeA ->
    Name q0 <> CLOUDFLARE_DOH_HOST ->
    cache_peek env w (Name q0) = None ->
    forwarded r (posts w) = Reply wire resp m ->
    let evs :=
      EvCacheGet (Name q0) :: forward_events r (posts w) ++
      [EvCacheSet (Name q0) (length (heap w)); EvWriteMsg (SetReply m r)] in
    Served s r w
      (mkWorld (heap w ++ [SetReply m r])
               (mkCache (defaultExpiration (cache w))
                  (<[Name q0 :=
                       mkItem (length (heap w))
                         (expiration_at (cache w) (ticks_after_get w (Name q0)))]>
                     (items (cache w))))
               (ticks_after_set (cache w) (ticks_after_get w (Name q0)))
               (S (posts w)) (exchanges w) (trace w ++ evs))
      evs
| served_miss_failed q0 rest err :
    Question r = q0 :: rest ->
    Qtype q0 = TypeA ->
    Name q0 <> CLOUDFLARE_DOH_HOST ->
    cache_peek env w (Name q0) = None ->
    forward_result r w = (None, Some err) ->
    let evs :=
      EvCacheGet (Name q0) :: forward_events r (posts w) ++
      [EvPrintf ("requested name = " +:+ Name q0); EvErrorLog err;
       EvWriteMsg (servfail r)] in
    Served s r w
      (mkWorld (heap w ++ forward_cells r (posts w) ++ [servfail r]) (cache w)
               (ticks_after_get w (Name q0)) (forward_posts r (posts w))
               (exchanges w) (trace w ++ evs))
      evs
| served_relay wire resp m :
    first_question_is_A r = false ->
    forwarded r (posts w) = Reply wire resp m ->
    let evs := forward_events r (posts w) ++ [EvWriteMsg (SetReply m r)] in
    Served s r w
      (mkWorld (heap w ++ [SetReply m r]) (cache w) (ticks w) (S (posts w))
               (exchanges w) (trace w ++ evs))
      evs
| served_relay_failed err :
    first_question_is_A r = false ->
    forward_result r w = (None, Some err) ->
    let evs := forward_events r (posts w) ++ [EvWriteMsg (servfail r)] in
    Served s r w
      (mkWorld (heap w ++ forward_cells r (posts w) ++ [servfail r]) (cache w)
               (ticks w) (forward_posts r (posts w)) (exchanges w)
               (trace w ++ evs))
      evs.

(** The question that the [n]-th attempt sends. *)
Definition bootstrap_query (n : nat) : Msg :=
  SetQuestion zeroMsg (env_Id env n) CLOUDFLARE_DOH_HOST TypeA.

Definition is_sleep_1s (e : Event) : bool :=
  match e with EvSleep d => d =? 1000000000 | _ => false end.

(** The [k] plain DNS exchanges from the [n0]-th on all fail. *)
Definition attempts_fail (n0 k : nat) : Prop :=
  forall j, (j < k)%nat -> exists err, env_Exchange env (n0 + j) = inr err.

(** The calls of a bootstrap, counted: exchanges, sleeps (all of one
    second), and neither a cache nor a listener. *)
Definition bootstrap_counts (evs : list Event) (nexch nsleep : nat) : Prop :=
  count_ev is_exchange evs = nexch /\
  count_ev is_sleep evs = nsleep /\
  count_ev is_sleep_1s evs = nsleep /\
  count_ev is_listen evs = 0%nat /\
  count_ev is_cache_op evs = 0%nat.

(** ** Further descriptions: replies, sequences, the bootstrap trace *)

(** The messages that a run writes to the requester, in order. *)
Fixpoint written (evs : list Event) : list Msg :=
  match evs with
  | [] => []
  | EvWriteMsg m :: evs' => m :: written evs'
  | _ :: evs' => written evs'
  end.

(** [out] is a reply to the query [r]: the identifier and opcode of [r],
    the response bit, the first question of [r] alone if [r] has one, and
    the response code of success or of server failure. *)
Definition is_reply_to (r out : Msg) : Prop :=
  Id out = Id r /\ Opcode out = Opcode r /\ Response out = true /\
  (forall q0 rest, Question r = q0 :: rest -> Question out = [q0]) /\
  (Rcode out = RcodeSuccess \/ Rcode out = RcodeServerFailure).

Definition is_body_close (e : Event) : bool :=
  match e with EvBodyClose => true | _ => false end.

(** The first question of [r] is of type A and asks for the name [k]. *)
Definition asks_A_for (k : string) (r : Msg) : bool :=
  match Question r with
  | q0 :: _ => (Qtype q0 =? TypeA) && String.eqb (Name q0) k
  | [] => false
  end.

(** No two names of the cache share a stored message. *)
Definition cache_distinct (w : World) : Prop :=
  forall k1 k2 item1 item2,
    k1 <> k2 ->
    items (cache w) !! k1 = Some item1 ->
    items (cache w) !! k2 = Some item2 ->
    Object item1 <> Object item2.

(** The runs of [ServeDNS] on a list of queries, one after the other. *)
Inductive ServedAll (s : SecHandler) : list Msg -> World -> World -> list Event -> Prop :=
| served_none w : ServedAll s [] w w []
| served_next r rs w w1 w2 evs1 evs2 :
    Served s r w w1 evs1 ->
    ServedAll s rs w1 w2 evs2 ->
    ServedAll s (r :: rs) w w2 (evs1 ++ evs2).

(** The error of the [n]-th plain DNS exchange, when it fails. *)
Definition exchange_error (n : nat) : error :=
  match env_Exchange env n with
  | inr err => err
  | inl _ => LibError "no error"
  end.

(** What a failed attempt leaves in the trace: the exchange and the line
    for the error log. *)
Definition failed_attempt (n : nat) : list Event :=
  [EvExchange (bootstrap_query n) CLOUDFLARE_DNS;
   EvErrorLogMsg bootstrap_failed (exchange_error n)].

(** What the loop of [RunDNS] does before the attempt of iteration [i]. *)
Definition before_retry (i : Z) : list Event :=
  [EvSleep (Second * 1); EvPrintf ("retry " +:+ pretty i +:+ "...")].

(** The trace of [k] iterations of the loop that all fail, from iteration
    [i] and exchange [n] on. *)
Fixpoint failed_retries (i : Z) (n : nat) (k : nat) : list Event :=
  match k with
  | O => []
  | S k' => before_retry i ++ failed_attempt n ++ failed_retries (i + 1) (S n) k'
  end.

(** The trace of a bootstrap whose attempt after [k] failures succeeds,
    up to and including that attempt; [n] is the number of the first
    exchange. *)
Definition bootstrap_trace (n : nat) (k : nat) : list Event :=
  match k with
  | O => [EvExchange (bootstrap_query n) CLOUDFLARE_DNS]
  | S k' =>
      failed_attempt n ++ failed_retries 1 (S n) k' ++
      before_retry (Z.of_nat k) ++
      [EvExchange (bootstrap_query (n + k)) CLOUDFLARE_DNS]
  end.

(** The stop function that [RunDNS] returns (lines 193-198), closed over
    [srv]; [shutdown] is what [srv.Shutdown()] gives. *)
Definition SvrStop (srv : option Server) (shutdown : Server -> option error)
  : option error :=
  match srv with
  | Some server => shutdown server
  | None => Some (newErr "No DNS server instance.")
  end.

(** ** Equations of the operations *)

Ltac trace_norm := repeat rewrite <- app_assoc; simpl.

Lemma count_ev_app f t1 t2 :
  count_ev f (t1 ++ t2) = (count_ev f t1 + count_ev f t2)%nat.
Proof. induction t1 as [| e t1 IH]; simpl; [reflexivity | rewrite IH; lia]. Qed.

Lemma count_ev_cons f e t :
  count_ev f (e :: t) = ((if f e then 1 else 0) + count_ev f t)%nat.
Proof. reflexivity. Qed.

Lemma count_ev_none f t :
  Forall (fun e => f e = false) t -> count_ev f t = 0%nat.
Proof. induction 1 as [| e t He _ IH]; simpl; [| rewrite He, IH]; reflexivity. Qed.

Lemma same_records_refl m : same_records m m.
Proof. repeat split. Qed.

Lemma same_records_trans m1 m2 m3 :
  same_records m1 m2 -> same_records m2 m3 -> same_records m1 m3.
Proof.
  unfold same_records. intros H12 H23.
  destruct H12 as (?&?&?&?&?&?&?&?), H23 as (?&?&?&?&?&?&?&?).
  repeat split; congruence.
Qed.

Lemma same_records_SetReply m r : same_records m (SetReply m r).
Proof. repeat split. Qed.

Lemma SetReply_fields m r :
  Id (SetReply m r) = Id r /\
  Response (SetReply m r) = true /\
  Rcode (SetReply m r) = RcodeSuccess /\
  Answer (SetReply m r) = Answer m /\
  (forall q0 rest, Question r = q0 :: rest -> Question (SetReply m r) = [q0]) /\
  (Question r = [] -> Question (SetReply m r) = Question m).
Proof.
  repeat split; unfold SetReply; simpl; intros.
  - rewrite H. reflexivity.
  - rewrite H. reflexivity.
Qed.

Lemma load_eq p m w :
  heap w !! p = Some m -> load (Some p) w = Some (m, w).
Proof. intros H. unfold load. rewrite H. reflexivity. Qed.

Lemma store_eq p m w :
  (p < length (heap w))%nat ->
  store (Some p) m w = Some (tt, set_heap (<[p:=m]> (heap w)) w).
Proof. intros H. unfold store. destruct (decide _); [reflexivity | lia]. Qed.

Lemma msg_SetReply_eq p m r w :
  heap w !! p = Some m ->
  msg_SetReply (Some p) r w =
    Some (tt, set_heap (<[p:=SetReply m r]> (heap w)) w).
Proof.
  intros H. unfold msg_SetReply, bind. rewrite (load_eq _ _ _ H).
  apply store_eq. eapply lookup_lt_Some; eauto.
Qed.

Lemma WriteMsg_eq p m w :
  heap w !! p = Some m ->
  WriteMsg (Some p) w = Some (tt, set_trace (trace w ++ [EvWriteMsg m]) w).
Proof. intros H. unfold WriteMsg, bind. rewrite (load_eq _ _ _ H). reflexivity. Qed.

(** Lines 78-79, 87-88, 95-96 and 109-110: [SetReply] on a stored message,
    then [WriteMsg] of it. *)
Lemma reply_eq p m r w :
  heap w !! p = Some m ->
  (run msg_SetReply (Some p) r; WriteMsg (Some p)) w =
    Some (tt, mkWorld (<[p:=SetReply m r]> (heap w)) (cache w) (ticks w)
                      (posts w) (exchanges w)
                      (trace w ++ [EvWriteMsg (SetReply m r)])).
Proof.
  intros H. unfold bind at 1. rewrite (msg_SetReply_eq _ _ _ _ H).
  erewrite WriteMsg_eq.
  - reflexivity.
  - simpl. apply list_lookup_insert_eq. eapply lookup_lt_Some; eauto.
Qed.

Lemma HandleFailed_eq r w :
  HandleFailed r w =
    Some (tt, mkWorld (heap w ++ [servfail r]) (cache w) (ticks w) (posts w)
                      (exchanges w) (trace w ++ [EvWriteMsg (servfail r)])).
Proof.
  unfold HandleFailed, bind, newMsg, msg_SetRcode, bind.
  erewrite load_eq; [| simpl; apply list_lookup_middle; reflexivity].
  rewrite store_eq; [| simpl; rewrite length_app; simpl; lia].
  simpl.
  assert (Hins : <[length (heap w):=SetRcode zeroMsg r RcodeServerFailure]>
                   (heap w ++ [zeroMsg]) = heap w ++ [servfail r]).
  { rewrite insert_app_r_alt by lia. rewrite Nat.sub_diag. reflexivity. }
  rewrite Hins.
  erewrite WriteMsg_eq; [reflexivity |].
  simpl. apply list_lookup_middle. reflexivity.
Qed.

Lemma makeHttpsRequest_eq wire w :
  makeHttpsRequest env wire w =
    Some (transport_result (env_Post env (posts w)),
          mkWorld (heap w) (cache w) (ticks w) (S (posts w)) (exchanges w)
                  (trace w ++ transport_events wire (env_Post env (posts w)))).
Proof.
  unfold makeHttpsRequest, client_Post, bind, emit, transport_events,
    transport_result. simpl.
  destruct (env_Post env (posts w)) as [err | code status body]; simpl.
  - reflexivity.
  - destruct (code =? 200); simpl.
    + destruct body; simpl; trace_norm; reflexivity.
    + trace_norm. reflexivity.
Qed.

Lemma transport_result_shape pr :
  (exists resp, transport_result pr = (Some resp, None)) \/
  (exists err, transport_result pr = (None, Some err)).
Proof.
  destruct pr as [err | code status body]; simpl; eauto.
  destruct (code =? 200); eauto. destruct body; eauto.
Qed.

Lemma QueryOverHTTPS_eq r w :
  QueryOverHTTPS env r w =
    Some (forward_result r w,
          mkWorld (heap w ++ forward_cells r (posts w)) (cache w) (ticks w)
                  (forward_posts r (posts w)) (exchanges w)
                  (trace w ++ forward_events r (posts w))).
Proof.
  unfold QueryOverHTTPS, msg_Pack, forward_result, forwarded, forward_events,
    forward_cells, forward_posts.
  unfold bind at 1. unfold bind at 1. unfold emit, ret. simpl.
  destruct (env_Pack env r) as [wire | perr]; simpl.
  - unfold bind at 1. rewrite makeHttpsRequest_eq. simpl.
    destruct (transport_result_shape (env_Post env (posts w)))
      as [[resp Hres] | [err Hres]]; rewrite Hres; simpl.
    + unfold bind, newMsg, msg_Unpack, emit, ret. simpl.
      destruct (env_Unpack env resp) as [m | uerr]; simpl.
      * unfold bind. rewrite store_eq by (simpl; rewrite length_app; simpl; lia).
        simpl. rewrite insert_app_r_alt by lia. rewrite Nat.sub_diag. simpl.
        trace_norm. reflexivity.
      * trace_norm. reflexivity.
    + unfold transport_events. trace_norm. rewrite !app_nil_r. reflexivity.
  - rewrite app_nil_r. reflexivity.
Qed.

Lemma cache_Get_eq k w :
  cache_Get env k w =
    Some (cache_peek env w k,
          mkWorld (heap w) (cache w) (ticks_after_get w k) (posts w)
                  (exchanges w) (trace w ++ [EvCacheGet k])).
Proof.
  unfold cache_Get, cache_peek, ticks_after_get, bind, emit, get_cache. simpl.
  destruct (items (cache w) !! k) as [item |]; simpl.
  - destruct (0 <? Expiration item); simpl.
    + unfold time_Now, bind, ret. simpl.
      destruct (Expiration item <? env_Now env (ticks w)); reflexivity.
    + reflexivity.
  - reflexivity.
Qed.

Lemma cache_SetDefault_eq k x w :
  cache_SetDefault env k x w =
    Some (tt,
          mkWorld (heap w)
                  (mkCache (defaultExpiration (cache w))
                     (<[k := mkItem x (expiration_at (cache w) (ticks w))]>
                        (items (cache w))))
                  (ticks_after_set (cache w) (ticks w)) (posts w)
                  (exchanges w) (trace w ++ [EvCacheSet k x])).
Proof.
  unfold cache_SetDefault, cache_Set, expiration_at, ticks_after_set, bind,
    emit, get_cache, put_cache, DefaultExpiration. simpl.
  destruct (0 <? defaultExpiration (cache w)); reflexivity.
Qed.

Lemma forwarded_cases r n :
  (exists wire resp m,
     forwarded r n = Reply wire resp m /\
     env_Pack env r = inl wire /\
     transport_result (env_Post env n) = (Some resp, None) /\
     env_Unpack env resp = inl m) \/
  (forwarded r n = PackError /\ exists e, env_Pack env r = inr e) \/
  (forwarded r n = TransportError /\
   exists wire e, env_Pack env r = inl wire /\
     transport_result (env_Post env n) = (None, Some e)) \/
  (forwarded r n = UnpackError /\
   exists wire resp e, env_Pack env r = inl wire /\
     transport_result (env_Post env n) = (Some resp, None) /\
     env_Unpack env resp = inr e).
Proof.
  unfold forwarded.
  destruct (env_Pack env r) as [wire | e]; [| right; left; eauto].
  destruct (transport_result_shape (env_Post env n)) as [[resp H] | [e H]];
    rewrite H.
  - destruct (env_Unpack env resp) as [m | e] eqn:Hu.
    + left. exists wire, resp, m. auto.
    + right; right; right. split; [reflexivity |]. exists wire, resp, e. auto.
  - right; right; left. split; [reflexivity |]. exists wire, e. auto.
Qed.

Lemma forwarded_reply r n wire resp m :
  forwarded r n = Reply wire resp m ->
  forward_cells r n = [m] /\ forward_posts r n = S n /\
  forall w, posts w = n -> forward_result r w = (Some (length (heap w)), None).
Proof.
  intros H.
  destruct (forwarded_cases r n)
    as [(wire' & resp' & m' & Hf & Hp & Ht & Hu)
       | [[Hf _] | [[Hf _] | [Hf _]]]]; try congruence.
  rewrite H in Hf. inversion Hf; subst wire' resp' m'.
  unfold forward_cells, forward_posts, forward_result.
  rewrite Hp, Ht, Hu. repeat split.
  intros w Hw. rewrite Hw, H. reflexivity.
Qed.

Lemma forward_result_failed r w err :
  forward_result r w = (None, Some err) ->
  (forall wire resp m, forwarded r (posts w) <> Reply wire resp m) /\
  (err = pack_error \/ err = transport_error \/ err = unpack_error).
Proof.
  unfold forward_result.
  destruct (forwarded r (posts w)); intros H; inversion H; subst;
    split; auto; congruence.
Qed.

Lemma forward_result_cases r w :
  (exists wire resp m, forwarded r (posts w) = Reply wire resp m) \/
  (exists err, forward_result r w = (None, Some err)).
Proof.
  unfold forward_result.
  destruct (forwarded r (posts w)); eauto.
Qed.

Lemma insert_fresh_cell (h : list Msg) (m m' : Msg) :
  <[length h:=m']> (h ++ [m]) = h ++ [m'].
Proof. rewrite insert_app_r_alt by lia. rewrite Nat.sub_diag. reflexivity. Qed.

(** The relation describes runs of [ServeDNS]. *)
Lemma Served_run s r w w' evs :
  Served s r w w' evs -> ServeDNS env s r w = Some (tt, w').
Proof.
  intros HS. destruct HS as
    [h m Hq Hh Hm
    | q0 rest p m HQ HT HN Hpeek Hm
    | q0 rest wire resp m HQ HT HN Hpeek Hf evs
    | q0 rest err HQ HT HN Hpeek Hf evs
    | wire resp m HA Hf evs
    | err HA Hf evs].
  - unfold first_question_is_host_A in Hq. unfold ServeDNS.
    destruct (Question r) as [| q0 rest]; [discriminate |].
    apply andb_prop in Hq. destruct Hq as [HT HN]. rewrite HT, HN, Hh.
    apply reply_eq. exact Hm.
  - unfold ServeDNS. rewrite HQ.
    apply Z.eqb_eq in HT. apply String.eqb_neq in HN. rewrite HT, HN.
    unfold bind at 1. rewrite cache_Get_eq, Hpeek.
    erewrite reply_eq by (simpl; exact Hm). simpl.
    rewrite <- app_assoc. reflexivity.
  - unfold ServeDNS. rewrite HQ.
    apply Z.eqb_eq in HT. apply String.eqb_neq in HN. rewrite HT, HN.
    unfold bind at 1. rewrite cache_Get_eq, Hpeek.
    unfold bind at 1. rewrite QueryOverHTTPS_eq. simpl.
    destruct (forwarded_reply _ _ _ _ _ Hf) as (Hcells & Hposts & Hr).
    unfold forward_result. simpl. rewrite Hf, Hcells, Hposts.
    unfold bind at 1. rewrite cache_SetDefault_eq. simpl.
    erewrite reply_eq by (simpl; apply list_lookup_middle; reflexivity).
    simpl. rewrite insert_fresh_cell, <- !app_assoc. reflexivity.
  - unfold ServeDNS. rewrite HQ.
    apply Z.eqb_eq in HT. apply String.eqb_neq in HN. rewrite HT, HN.
    unfold bind at 1. rewrite cache_Get_eq, Hpeek.
    unfold bind at 1. rewrite QueryOverHTTPS_eq. simpl.
    unfold forward_result in Hf |- *. simpl. rewrite Hf.
    unfold bind, log_Printf, WriteErrorLog, emit. simpl.
    rewrite HandleFailed_eq. simpl.
    rewrite <- !app_assoc. reflexivity.
  - assert (Hrelay : ServeDNS env s r w = relay env r w).
    { unfold ServeDNS, first_question_is_A in *.
      destruct (Question r); [reflexivity |]. rewrite HA. reflexivity. }
    rewrite Hrelay. unfold relay. unfold bind at 1. rewrite QueryOverHTTPS_eq.
    destruct (forwarded_reply _ _ _ _ _ Hf) as (Hc & Hp & Hr).
    rewrite (Hr w eq_refl), Hc, Hp.
    erewrite reply_eq by (simpl; apply list_lookup_middle; reflexivity).
    simpl. rewrite insert_fresh_cell, <- app_assoc. reflexivity.
  - assert (Hrelay : ServeDNS env s r w = relay env r w).
    { unfold ServeDNS, first_question_is_A in *.
      destruct (Question r); [reflexivity |]. rewrite HA. reflexivity. }
    rewrite Hrelay. unfold relay. unfold bind at 1. rewrite QueryOverHTTPS_eq.
    rewrite Hf. rewrite HandleFailed_eq. simpl.
    rewrite <- !app_assoc. reflexivity.
Qed.

(** In a well-formed world one of the six ways applies. *)
Lemma Served_exists s r w :
  wf_world s w -> exists w' evs, Served s r w w' evs.
Proof.
  intros [(h & Hh & Hlt) Hc].
  destruct (first_question_is_A r) eqn:HA.
  - unfold first_question_is_A in HA.
    destruct (Question r) as [| q0 rest] eqn:HQ; [discriminate |].
    apply Z.eqb_eq in HA.
    destruct (String.eqb (Name q0) CLOUDFLARE_DOH_HOST) eqn:HN.
    + destruct (lookup_lt_is_Some_2 _ _ Hlt) as [m Hm].
      eexists _, _. eapply served_host; eauto.
      unfold first_question_is_host_A. rewrite HQ, HN, HA. reflexivity.
    + apply String.eqb_neq in HN.
      destruct (cache_peek env w (Name q0)) as [p |] eqn:Hpeek.
      * assert (Hp : (p < length (heap w))%nat).
        { unfold cache_peek in Hpeek.
          destruct (items (cache w) !! Name q0) as [item |] eqn:Hi;
            [| discriminate].
          destruct (Hc _ _ Hi) as [Hlt' _].
          destruct (0 <? Expiration item);
            [destruct (Expiration item <? env_Now env (ticks w)) |];
            inversion Hpeek; subst; auto. }
        destruct (lookup_lt_is_Some_2 _ _ Hp) as [m Hm].
        eexists _, _. eapply served_hit; eauto.
      * destruct (forward_result_cases r w)
          as [(wire & resp & m & Hf) | [err Hf]].
        -- eexists _, _. eapply served_miss; eauto.
        -- eexists _, _. eapply served_miss_failed; eauto.
  - destruct (forward_result_cases r w) as [(wire & resp & m & Hf) | [err Hf]].
    + eexists _, _. eapply served_relay; eauto.
    + eexists _, _. eapply served_relay_failed; eauto.
Qed.

(** In a well-formed world [ServeDNS] returns, along one of the six ways. *)
Lemma ServeDNS_Served s r w :
  wf_world s w ->
  exists w' evs, ServeDNS env s r w = Some (tt, w') /\ Served s r w w' evs.
Proof.
  intros Hwf. destruct (Served_exists s r w Hwf) as (w' & evs & HS).
  exists w', evs. split; [eapply Served_run; eauto | exact HS].
Qed.

(** *** What every way through [ServeDNS] keeps *)

Lemma forward_events_kind r n :
  Forall (fun e => is_forward_ev e = true) (forward_events r n).
Proof.
  unfold forward_events, transport_events.
  destruct (env_Pack env r) as [wire | e]; [| repeat constructor].
  destruct (transport_result_shape (env_Post env n)) as [[resp H] | [e H]];
    rewrite H; destruct (env_Post env n); repeat constructor.
Qed.

Lemma forward_events_count f r n :
  (forall e, is_forward_ev e = true -> f e = false) ->
  count_ev f (forward_events r n) = 0%nat.
Proof.
  intros Hf. apply count_ev_none.
  eapply Forall_impl; [apply forward_events_kind | exact Hf].
Qed.

Lemma forward_events_pack r n : count_ev is_pack (forward_events r n) = 1%nat.
Proof.
  unfold forward_events, transport_events.
  destruct (env_Pack env r) as [wire | e]; [| reflexivity].
  destruct (transport_result_shape (env_Post env n)) as [[resp H] | [e H]];
    rewrite H; destruct (env_Post env n); reflexivity.
Qed.

Lemma forward_events_post r n :
  count_ev is_post (forward_events r n) =
    match env_Pack env r with inl _ => 1%nat | inr _ => 0%nat end.
Proof.
  unfold forward_events, transport_events.
  destruct (env_Pack env r) as [wire | e]; [| reflexivity].
  destruct (transport_result_shape (env_Post env n)) as [[resp H] | [e H]];
    rewrite H; destruct (env_Post env n); reflexivity.
Qed.

Lemma forward_events_head r n :
  exists rest, forward_events r n = EvPack r :: rest.
Proof. unfold forward_events. eauto. Qed.

Lemma cache_peek_Some w k p :
  cache_peek env w k = Some p ->
  exists item, items (cache w) !! k = Some item /\ Object item = p.
Proof.
  unfold cache_peek. destruct (items (cache w) !! k) as [item |]; [| discriminate].
  intros H. exists item. split; [reflexivity |].
  destruct (0 <? Expiration item);
    [destruct (Expiration item <? env_Now env (ticks w)) |];
    congruence.
Qed.

Lemma Served_trace s r w w' evs :
  Served s r w w' evs -> trace w' = trace w ++ evs.
Proof. destruct 1; reflexivity. Qed.

Lemma Served_wf s r w w' evs :
  wf_world s w -> Served s r w w' evs -> wf_world s w'.
Proof.
  intros [(h & Hh & Hlt) Hc] HS. unfold wf_world.
  destruct HS; simpl; rewrite ?length_insert, ?length_app; simpl.
  - split; [eauto |]. exact Hc.
  - split; [eauto |]. exact Hc.
  - split; [exists h; split; [auto | lia] |].
    intros k item Hk.
    destruct (decide (Name q0 = k)) as [Heq | Hne].
    + subst k. rewrite lookup_insert_eq in Hk. inversion Hk; subst item; simpl.
      split; [lia |]. rewrite Hh. intros Heq. inversion Heq. lia.
    + rewrite lookup_insert_ne in Hk by exact Hne.
      destruct (Hc _ _ Hk). split; [lia | auto].
  - split; [exists h; split; [auto | lia] |].
    intros k item Hk. destruct (Hc _ _ Hk). split; [lia | auto].
  - split; [exists h; split; [auto | lia] |].
    intros k item Hk. destruct (Hc _ _ Hk). split; [lia | auto].
  - split; [exists h; split; [auto | lia] |].
    intros k item Hk. destruct (Hc _ _ Hk). split; [lia | auto].
Qed.

Lemma Served_writes_once s r w w' evs :
  Served s r w w' evs -> count_ev is_write evs = 1%nat.
Proof.
  destruct 1; try reflexivity; subst evs;
    rewrite ?count_ev_cons, ?count_ev_app,
      (forward_events_count is_write) by (intros [] ?; simpl in *; congruence);
    reflexivity.
Qed.

Lemma not_A_not_host r :
  first_question_is_A r = false -> first_question_is_host_A r = false.
Proof.
  unfold first_question_is_A, first_question_is_host_A.
  destruct (Question r); [reflexivity |]. intros ->. reflexivity.
Qed.

Lemma other_name_not_host r q0 rest :
  Question r = q0 :: rest -> Name q0 <> CLOUDFLARE_DOH_HOST ->
  first_question_is_host_A r = false.
Proof.
  intros HQ HN. unfold first_question_is_host_A. rewrite HQ.
  apply String.eqb_neq in HN. rewrite HN. apply andb_false_r.
Qed.

(** The stored [Host] message after one query: its records are as before;
    it is rewritten by [SetReply] when the query asks for the upstream's
    name, and is as before otherwise. *)
Lemma Served_Host s r w w' evs h m :
  wf_world s w -> Served s r w w' evs ->
  Host s = Some h -> heap w !! h = Some m ->
  heap w' !! h =
    Some (if first_question_is_host_A r then SetReply m r else m).
Proof.
  intros [_ Hc] HS Hh Hm.
  assert (Hlt : (h < length (heap w))%nat) by (eapply lookup_lt_Some; eauto).
  destruct HS; simpl.
  - rewrite H. rewrite H0 in Hh. inversion Hh; subst h0.
    rewrite H1 in Hm. inversion Hm; subst m0.
    apply list_lookup_insert_eq. exact Hlt.
  - rewrite (other_name_not_host _ _ _ H H1).
    destruct (cache_peek_Some _ _ _ H2) as (item & Hi & Hp).
    destruct (Hc _ _ Hi) as [_ Hne].
    rewrite list_lookup_insert_ne; [exact Hm |].
    intros ->. apply Hne. rewrite Hh, Hp. reflexivity.
  - rewrite (other_name_not_host _ _ _ H H1).
    rewrite lookup_app_l by exact Hlt. exact Hm.
  - rewrite (other_name_not_host _ _ _ H H1).
    rewrite lookup_app_l by exact Hlt. exact Hm.
  - rewrite (not_A_not_host _ H).
    rewrite lookup_app_l by exact Hlt. exact Hm.
  - rewrite (not_A_not_host _ H).
    rewrite lookup_app_l by exact Hlt. exact Hm.
Qed.

(** *** Bootstrap *)

Lemma getDohHostAddr_eq w :
  getDohHostAddr env w =
    match env_Exchange env (exchanges w) with
    | inl reply =>
        Some ((Some (S (length (heap w))), None),
              mkWorld (heap w ++ [bootstrap_query (exchanges w); reply])
                      (cache w) (ticks w) (posts w) (S (exchanges w))
                      (trace w ++ [EvExchange (bootstrap_query (exchanges w))
                                              CLOUDFLARE_DNS]))
    | inr err =>
        Some ((None, Some err),
              mkWorld (heap w ++ [bootstrap_query (exchanges w)])
                      (cache w) (ticks w) (posts w) (S (exchanges w))
                      (trace w ++ [EvExchange (bootstrap_query (exchanges w))
                                              CLOUDFLARE_DNS]))
    end.
Proof.
  unfold getDohHostAddr, msg_SetQuestion, client_Exchange, newMsg.
  unfold bind at 1. unfold bind at 1. unfold bind at 1.
  erewrite load_eq by (simpl; apply list_lookup_middle; reflexivity).
  unfold bind at 1. unfold dns_Id at 1. simpl.
  destruct (decide _) as [_ | Hn];
    [| rewrite length_app in Hn; simpl in Hn; lia].
  rewrite insert_fresh_cell.
  unfold bind at 1.
  erewrite load_eq by (simpl; apply list_lookup_middle; reflexivity).
  unfold bind, emit, ret. simpl. fold (bootstrap_query (exchanges w)).
  destruct (env_Exchange env (exchanges w)) as [reply | err]; simpl.
  - rewrite length_app, <- app_assoc. simpl.
    replace (length (heap w) + 1)%nat with (S (length (heap w))) by lia.
    reflexivity.
  - reflexivity.
Qed.

Lemma attempts_fail_S n0 k :
  attempts_fail n0 (S k) ->
  (exists err, env_Exchange env n0 = inr err) /\ attempts_fail (S n0) k.
Proof.
  intros H. split.
  - destruct (H 0%nat ltac:(lia)) as [err He]. rewrite Nat.add_0_r in He. eauto.
  - intros j Hj. destruct (H (S j) ltac:(lia)) as [err He].
    replace (S n0 + j)%nat with (n0 + S j)%nat by lia. eauto.
Qed.

Lemma attempts_dec n0 n :
  attempts_fail n0 n \/
  exists k reply, (k < n)%nat /\ attempts_fail n0 k /\
    env_Exchange env (n0 + k) = inl reply.
Proof.
  induction n as [| n IH].
  - left. intros j Hj. lia.
  - destruct IH as [Hall | (k & reply & Hk & Hf & Hr)].
    + destruct (env_Exchange env (n0 + n)) as [reply | err] eqn:He.
      * right. exists n, reply. auto.
      * left. intros j Hj. destruct (decide (j = n)) as [-> | Hne]; [eauto |].
        apply Hall. lia.
    + right. exists k, reply. split; [lia | auto].
Qed.

Lemma bootstrap_counts_step evs nexch nsleep q err (i : Z) :
  bootstrap_counts evs nexch nsleep ->
  bootstrap_counts
    ([EvSleep (Second * 1); EvPrintf ("retry " +:+ pretty i +:+ "...");
      EvExchange q CLOUDFLARE_DNS; EvErrorLogMsg bootstrap_failed err] ++ evs)
    (S nexch) (S nsleep).
Proof.
  unfold bootstrap_counts. intros (H1 & H2 & H3 & H4 & H5).
  rewrite !count_ev_app, H1, H2, H3, H4, H5. repeat split.
Qed.

(** The loop when every remaining attempt fails: it goes through all [n]
    iterations that are left and ends with the last error. *)
Lemma retry_loop_exhausted n :
  forall fuel i h e w,
    i = 6 - Z.of_nat n -> (n <= fuel)%nat ->
    attempts_fail (exchanges w) n ->
    exists h' e' w' evs,
      retry_loop env fuel i h e w = Some ((h', e'), w') /\
      ((0 < n)%nat -> exists err, e' = Some err) /\
      (n = 0%nat -> e' = e) /\
      exchanges w' = (exchanges w + n)%nat /\
      cache w' = cache w /\
      trace w' = trace w ++ evs /\
      bootstrap_counts evs n n.
Proof.
  induction n as [| n IH]; intros fuel i h e w Hi Hfuel Hfail.
  - exists h, e, w, []. simpl in Hi. subst i.
    destruct fuel; simpl; rewrite Nat.add_0_r, app_nil_r;
      repeat split; intros; lia.
  - destruct fuel as [| fuel]; [lia |].
    destruct (attempts_fail_S _ _ Hfail) as [[err He] Hrest].
    simpl retry_loop.
    replace (i <? 6) with true by (symmetry; apply Z.ltb_lt; lia).
    unfold time_Sleep, log_Printf, WriteErrorLogMsg.
    unfold bind at 1. unfold emit at 1.
    unfold bind at 1. unfold emit at 1.
    unfold bind at 1. rewrite getDohHostAddr_eq. simpl. rewrite He. simpl.
    unfold bind at 1. unfold emit at 1. simpl.
    edestruct (IH fuel (i + 1) None (Some err)) as (h' & e' & w' & evs & Hrun & Hs & _ & Hx & Hc & Ht & Hcnt);
      [lia | lia | | rewrite Hrun]; [exact Hrest |].
    simpl in Hx, Hc, Ht.
    eexists h', e', w', _. split; [reflexivity |].
    split.
    { intros _. destruct n; [| apply Hs; lia].
      destruct fuel; simpl in Hrun;
        replace (i + 1 <? 6) with false in Hrun
          by (symmetry; apply Z.ltb_ge; lia);
        inversion Hrun; eauto. }
    split; [intros; lia |].
    split; [lia |]. split; [exact Hc |].
    split.
    { rewrite Ht. rewrite <- !app_assoc. simpl. reflexivity. }
    apply (bootstrap_counts_step evs n n _ err i Hcnt).
Qed.

(** The loop when the attempt after [k] failed ones succeeds: it stops
    there, with the reply as a stored message. *)
Lemma retry_loop_succeeds k :
  forall fuel i h e w reply,
    i + Z.of_nat k < 6 -> (k < fuel)%nat ->
    attempts_fail (exchanges w) k ->
    env_Exchange env (exchanges w + k) = inl reply ->
    exists p w' evs,
      retry_loop env fuel i h e w = Some ((Some p, None), w') /\
      heap w' !! p = Some reply /\
      exchanges w' = (exchanges w + S k)%nat /\
      cache w' = cache w /\
      trace w' = trace w ++ evs /\
      bootstrap_counts evs (S k) (S k).
Proof.
  induction k as [| k IH]; intros fuel i h e w reply Hi Hfuel Hfail Hok;
    (destruct fuel as [| fuel]; [lia |]);
    simpl retry_loop;
    replace (i <? 6) with true by (symmetry; apply Z.ltb_lt; lia);
    unfold time_Sleep, log_Printf, WriteErrorLogMsg;
    unfold bind at 1; unfold emit at 1;
    unfold bind at 1; unfold emit at 1;
    unfold bind at 1; rewrite getDohHostAddr_eq; simpl.
  - rewrite Nat.add_0_r in Hok. rewrite Hok. simpl.
    eexists _, _, _. split; [reflexivity |]. simpl.
    split.
    { rewrite lookup_app_r by lia.
      replace (S (length (heap w)) - length (heap w))%nat with 1%nat by lia.
      reflexivity. }
    split; [lia |]. split; [reflexivity |].
    split; [rewrite <- !app_assoc; reflexivity |].
    repeat split.
  - destruct (attempts_fail_S _ _ Hfail) as [[err He] Hrest].
    rewrite He. simpl.
    unfold bind at 1. unfold emit at 1. simpl.
    edestruct (IH fuel (i + 1) None (Some err))
      as (p & w' & evs & Hrun & Hp & Hx & Hc & Ht & Hcnt);
      [| | | | rewrite Hrun]; [lia | lia | exact Hrest | |].
    { simpl. replace (S (exchanges w + k)) with (exchanges w + S k)%nat by lia.
      exact Hok. }
    simpl in Hx, Hc, Ht.
    eexists p, w', _. split; [reflexivity |].
    split; [exact Hp |]. split; [lia |]. split; [exact Hc |].
    split.
    { rewrite Ht. rewrite <- !app_assoc. simpl. reflexivity. }
    apply (bootstrap_counts_step evs (S k) (S k) _ err i Hcnt).
Qed.

Lemma start_server_eq port h w :
  start_server port h w =
    let srv := mkServer (":" +:+ pretty port) "udp" (mkSecHandler "UDP" h) in
    Some ((Some srv, None),
          mkWorld (heap w) (mkCache (1 * Hour) ∅) (ticks w) (posts w)
                  (exchanges w)
                  (trace w ++ [EvCacheNew (1 * Hour) (10 * Minute);
                               EvListenAndServe srv])).
Proof.
  unfold start_server, cache_New, bind, emit, put_cache, ret. simpl.
  rewrite <- app_assoc. reflexivity.
Qed.

End Runs.

(** ** The transport and the forwarder *)

(** C7. [makeHttpsRequest] makes one POST of the query bytes, with the
    fixed content type, to the fixed URL, and no other; an error of the
    POST comes back as it is; a completed exchange whose status is not 200
    gives an error and no body; an error of reading the body comes back as
    it is; otherwise the body is returned. *)
Theorem makeHttpsRequest_single_post (env : Env) (wire : bytes) (w : World) :
  exists res w' rest,
    makeHttpsRequest env wire w = Some (res, w') /\
    trace w' =
      trace w ++
      EvPost CLOUDFLARE_DOH_URL "application/dns-udpwireformat" wire :: rest /\
    count_ev is_post rest = 0%nat /\
    posts w' = S (posts w) /\
    (forall err, env_Post env (posts w) = PostFailed err ->
       res = (None, Some err)) /\
    (forall code status body,
       env_Post env (posts w) = PostDone code status body -> code <> 200 ->
       res = (None, Some (newErr ("HTTP error code " +:+ status)))) /\
    (forall status err,
       env_Post env (posts w) = PostDone 200 status (ReadFailed err) ->
       res = (None, Some err)) /\
    (forall status body,
       env_Post env (posts w) = PostDone 200 status (ReadOk body) ->
       res = (Some body, None)).
Proof.
  rewrite makeHttpsRequest_eq.
  eexists _, _, _. split; [reflexivity |]. simpl.
  split; [reflexivity |].
  split; [destruct (env_Post env (posts w)); reflexivity |].
  split; [reflexivity |].
  repeat split; intros.
  - rewrite H. reflexivity.
  - rewrite H. simpl. apply Z.eqb_neq in H0. rewrite H0. reflexivity.
  - rewrite H. reflexivity.
  - rewrite H. reflexivity.
Qed.

(** C6. [QueryOverHTTPS] is encode, then [makeHttpsRequest], then decode.
    A query that does not encode gives the pack error and no further call;
    a failed exchange gives the transport error and no decode; a reply
    that does not decode gives the unpack error; otherwise the result is a
    stored message that holds the decoded reply.  The three errors are
    different from each other. *)
Theorem QueryOverHTTPS_first_error (env : Env) (r : Msg) (w : World) :
  exists res w',
    QueryOverHTTPS env r w = Some (res, w') /\
    match env_Pack env r with
    | inr _ =>
        res = (None, Some pack_error) /\
        trace w' = trace w ++ [EvPack r] /\ posts w' = posts w
    | inl wire =>
        match makeHttpsRequest env wire (set_trace (trace w ++ [EvPack r]) w) with
        | Some ((Some resp, None), w2) =>
            trace w' = trace w2 ++ [EvUnpack resp] /\
            posts w' = posts w2 /\
            match env_Unpack env resp with
            | inl m =>
                exists p, res = (Some p, None) /\ heap w' !! p = Some m
            | inr _ => res = (None, Some unpack_error)
            end
        | Some (_, w2) =>
            res = (None, Some transport_error) /\
            trace w' = trace w2 /\ posts w' = posts w2
        | None => False
        end
    end /\
    pack_error <> transport_error /\ transport_error <> unpack_error /\
    pack_error <> unpack_error.
Proof.
  rewrite QueryOverHTTPS_eq.
  eexists _, _. split; [reflexivity |].
  split; [| repeat split; discriminate].
  unfold forward_result, forwarded, forward_events, forward_cells, forward_posts.
  simpl.
  destruct (env_Pack env r) as [wire | perr]; [| auto].
  rewrite makeHttpsRequest_eq. simpl.
  destruct (transport_result_shape (env_Post env (posts w)))
    as [[resp Hres] | [err Hres]]; rewrite Hres.
  - split; [rewrite <- !app_assoc; reflexivity |].
    split; [reflexivity |].
    destruct (env_Unpack env resp) as [m | uerr]; [| reflexivity].
    exists (length (heap w)). split; [reflexivity |].
    apply list_lookup_middle. reflexivity.
  - split; [reflexivity |].
    split; [| reflexivity].
    rewrite app_nil_r, <- !app_assoc. reflexivity.
Qed.

(** The three failures and the success of a forward, on samples: a query
    that does not encode, a 502, a body that does not decode, a reply. *)
Example QueryOverHTTPS_pack_error :
  QueryOverHTTPS env_502 (query 1 EmptyString TypeA) world0 =
    Some ((None, Some pack_error),
          set_trace [EvPack (query 1 EmptyString TypeA)] world0).
Proof. reflexivity. Qed.

Example QueryOverHTTPS_502 :
  QueryOverHTTPS env_502 (query 1 "example.com." 28) world0 =
    Some ((None, Some transport_error),
          mkWorld [] (mkCache 0 ∅) 0 1 0
            [EvPack (query 1 "example.com." 28);
             EvPost CLOUDFLARE_DOH_URL "application/dns-udpwireformat" [x01];
             EvBodyClose]).
Proof. reflexivity. Qed.

Example makeHttpsRequest_502 :
  option_map fst (makeHttpsRequest env_502 [x01] world0) =
    Some (None, Some (DohError "HTTP error code 502 Bad Gateway")).
Proof. reflexivity. Qed.

Example QueryOverHTTPS_unpack_error :
  QueryOverHTTPS env_502 (query 1 "example.com." 28) (set_posts 1 world0) =
    Some ((None, Some unpack_error),
          mkWorld [zeroMsg] (mkCache 0 ∅) 0 2 0
            [EvPack (query 1 "example.com." 28);
             EvPost CLOUDFLARE_DOH_URL "application/dns-udpwireformat" [x01];
             EvBodyClose; EvUnpack [xff]]).
Proof. reflexivity. Qed.

Example QueryOverHTTPS_reply :
  QueryOverHTTPS env_up (query 1 "example.com." 28) world0 =
    Some ((Some 0%nat, None),
          mkWorld [example_reply] (mkCache 0 ∅) 0 1 0
            [EvPack (query 1 "example.com." 28);
             EvPost CLOUDFLARE_DOH_URL "application/dns-udpwireformat" [x01];
             EvBodyClose; EvUnpack [x00]]).
Proof. reflexivity. Qed.

(** ** The handler *)

Lemma RunDNS_running :
  RunDNS env_up 53 world0 =
    Some ((Some (mkServer ":53" "udp" handler0), None), running).
Proof. vm_compute. reflexivity. Qed.

Lemma wf_running : wf_world handler0 running.
Proof.
  split.
  - exists 1%nat. split; [reflexivity | vm_compute; lia].
  - intros k item Hk.
    change (items (cache running)) with (∅ : gmap string Item) in Hk.
    rewrite lookup_empty in Hk. discriminate.
Qed.

(** C1, as stated, fails: a query that is not a single question is
    answered from the [Host] message all the same, when its first question
    is of type A for the upstream's name. *)
Lemma shortcut_not_only_single_question :
  single_host_A_question two_questions = false /\
  answers_from_host env_down handler0 two_questions running.
Proof.
  split; [reflexivity |].
  exists 1%nat, host_reply. eexists.
  split; [reflexivity |]. split; [reflexivity |].
  split; [vm_compute; reflexivity |].
  repeat split.
Qed.

Lemma Served_first_event env s r w w' evs :
  Served env s r w w' evs ->
  first_question_is_host_A r = false ->
  exists e rest, evs = e :: rest /\ is_write e = false.
Proof.
  intros HS Hno. destruct HS.
  - congruence.
  - eexists _, _. split; reflexivity.
  - eexists _, _. split; reflexivity.
  - eexists _, _. split; reflexivity.
  - destruct (forward_events_head env r (posts w)) as [rest Hr].
    subst evs. rewrite Hr. eexists _, _. split; reflexivity.
  - destruct (forward_events_head env r (posts w)) as [rest Hr].
    subst evs. rewrite Hr. eexists _, _. split; reflexivity.
Qed.

(** C1, amended.  [ServeDNS] answers from the [Host] message alone (no
    cache read, no cache write, no POST) exactly when the query has a first
    question, of type A, whose name is the upstream's; the questions after
    the first do not count. *)
Theorem self_host_shortcut (env : Env) (s : SecHandler) (r : Msg) (w : World) :
  wf_world s w ->
  (answers_from_host env s r w <-> first_question_is_host_A r = true).
Proof.
  intros Hwf.
  destruct (ServeDNS_Served env s r w Hwf) as (w' & evs & Hrun & HS).
  split.
  - intros (h & m & w'' & Hh & Hm & Hrun' & Ht & _).
    destruct (first_question_is_host_A r) eqn:Hq; [reflexivity | exfalso].
    rewrite Hrun in Hrun'. inversion Hrun'; subst w''.
    rewrite (Served_trace _ _ _ _ _ _ HS) in Ht.
    apply app_inv_head in Ht.
    destruct (Served_first_event _ _ _ _ _ _ HS Hq) as (e & rest & He & Hw).
    rewrite He in Ht. inversion Ht; subst e. discriminate.
  - intros Hq. destruct HS.
    + exists h, m. eexists.
      split; [exact H0 |]. split; [exact H1 |]. split; [exact Hrun |].
      repeat split.
    + rewrite (other_name_not_host _ _ _ H H1) in Hq. discriminate.
    + rewrite (other_name_not_host _ _ _ H H1) in Hq. discriminate.
    + rewrite (other_name_not_host _ _ _ H H1) in Hq. discriminate.
    + rewrite (not_A_not_host _ H) in Hq. discriminate.
    + rewrite (not_A_not_host _ H) in Hq. discriminate.
Qed.

(** C1, amended, at a sample query for the upstream's name, with the
    upstream unreachable. *)
Lemma self_host_shortcut_witness :
  wf_world handler0 running /\
  (answers_from_host env_down handler0 (query 7 CLOUDFLARE_DOH_HOST TypeA) running
   <-> first_question_is_host_A (query 7 CLOUDFLARE_DOH_HOST TypeA) = true).
Proof.
  split; [exact wf_running |].
  apply (self_host_shortcut env_down handler0 _ running). exact wf_running.
Defined.

(** C5. An A-type query for a name other than the upstream's, when
    [cache_Get] finds a live entry for the name: [ServeDNS] reads the cache
    and writes the cached message made a reply to the query (identifier,
    first question and response bit of the query; answer, authority and
    additional records of the cached message), and makes no POST. *)
Theorem cache_hit_served_from_cache
  (env : Env) (s : SecHandler) (r : Msg) (w : World)
  (q0 : DnsQuestion) (rest : list DnsQuestion) (p : nat) (m : Msg) :
  Question r = q0 :: rest ->
  Qtype q0 = TypeA ->
  Name q0 <> CLOUDFLARE_DOH_HOST ->
  cache_peek env w (Name q0) = Some p ->
  heap w !! p = Some m ->
  exists w' out,
    ServeDNS env s r w = Some (tt, w') /\
    trace w' = trace w ++ [EvCacheGet (Name q0); EvWriteMsg out] /\
    out = SetReply m r /\
    Id out = Id r /\ Question out = [q0] /\ Response out = true /\
    Answer out = Answer m /\ Ns out = Ns m /\ Extra out = Extra m /\
    posts w' = posts w.
Proof.
  intros HQ HT HN Hpeek Hm.
  pose proof (served_hit env s r w q0 rest p m HQ HT HN Hpeek Hm) as HS.
  eexists _, (SetReply m r). split; [exact (Served_run _ _ _ _ _ _ HS) |].
  simpl. rewrite HQ. repeat split.
Qed.

(** The scenario of the specification: a miss whose forward succeeds, then
    a second A-type query for the same name while the entry is live.  The
    second answer carries the records of the first, and there is one POST
    in all. *)
Lemma second_query_served_from_cache
  (env : Env) (s : SecHandler) (r1 r2 : Msg) (w : World)
  (q1 q2 : DnsQuestion) (rest1 rest2 : list DnsQuestion)
  (wire resp : bytes) (m : Msg) :
  Question r1 = q1 :: rest1 -> Question r2 = q2 :: rest2 ->
  Qtype q1 = TypeA -> Qtype q2 = TypeA ->
  Name q1 <> CLOUDFLARE_DOH_HOST -> Name q2 = Name q1 ->
  cache_peek env w (Name q1) = None ->
  forwarded env r1 (posts w) = Reply wire resp m ->
  (forall w1, ServeDNS env s r1 w = Some (tt, w1) ->
     cache_peek env w1 (Name q1) <> None) ->
  exists w1 w2 evs1 out1 out2,
    ServeDNS env s r1 w = Some (tt, w1) /\
    ServeDNS env s r2 w1 = Some (tt, w2) /\
    trace w1 = trace w ++ evs1 ++ [EvWriteMsg out1] /\
    trace w2 = trace w1 ++ [EvCacheGet (Name q1); EvWriteMsg out2] /\
    Answer out1 = Answer m /\ Answer out2 = Answer out1 /\
    Id out2 = Id r2 /\
    posts w1 = S (posts w) /\ posts w2 = posts w1.
Proof.
  intros HQ1 HQ2 HT1 HT2 HN Hsame Hpeek Hf Hlive.
  pose proof (served_miss env s r1 w q1 rest1 wire resp m HQ1 HT1 HN Hpeek Hf)
    as HS1.
  cbv zeta in HS1.
  pose proof (Served_run _ _ _ _ _ _ HS1) as Hrun1.
  specialize (Hlive _ Hrun1).
  match type of Hrun1 with _ = Some (_, ?x) => set (w1 := x) in * end.
  assert (Hp : cache_peek env w1 (Name q1) = Some (length (heap w))).
  { destruct (cache_peek env w1 (Name q1)) as [p |] eqn:Hp; [| congruence].
    destruct (cache_peek_Some _ _ _ _ Hp) as (item & Hi & Ho).
    unfold w1 in Hi. simpl in Hi. rewrite lookup_insert_eq in Hi.
    inversion Hi; subst item. simpl in Ho. congruence. }
  assert (Hm : heap w1 !! length (heap w) = Some (SetReply m r1)).
  { unfold w1. simpl. apply list_lookup_middle. reflexivity. }
  rewrite <- Hsame in HN, Hp.
  pose proof (served_hit env s r2 w1 q2 rest2 _ _ HQ2 HT2 HN Hp Hm) as HS2.
  pose proof (Served_run _ _ _ _ _ _ HS2) as Hrun2.
  rewrite Hsame in Hrun2.
  exists w1. eexists.
  exists (EvCacheGet (Name q1) :: forward_events env r1 (posts w) ++
          [EvCacheSet (Name q1) (length (heap w))]).
  exists (SetReply m r1), (SetReply (SetReply m r1) r2).
  split; [exact Hrun1 |]. split; [exact Hrun2 |].
  split.
  { unfold w1. cbn [trace]. f_equal.
    rewrite <- app_comm_cons, <- app_assoc. reflexivity. }
  repeat split.
Qed.

(** C9. On a hit, [SetReply] is applied to the stored message that the
    cache entry points to: after the hit the entry is the same, and the
    message it points to has the identifier, first question and response
    bit of the query just served; it is the message that was written. *)
Theorem cache_hit_rewrites_stored_entry
  (env : Env) (s : SecHandler) (r : Msg) (w : World)
  (q0 : DnsQuestion) (rest : list DnsQuestion) (item : Item) (m : Msg) :
  Question r = q0 :: rest ->
  Qtype q0 = TypeA ->
  Name q0 <> CLOUDFLARE_DOH_HOST ->
  items (cache w) !! Name q0 = Some item ->
  cache_peek env w (Name q0) = Some (Object item) ->
  heap w !! Object item = Some m ->
  exists w' stored,
    ServeDNS env s r w = Some (tt, w') /\
    items (cache w') !! Name q0 = Some item /\
    heap w' !! Object item = Some stored /\
    stored = SetReply m r /\
    Id stored = Id r /\ Question stored = [q0] /\ Response stored = true /\
    (Id m <> Id r -> stored <> m) /\
    trace w' = trace w ++ [EvCacheGet (Name q0); EvWriteMsg stored].
Proof.
  intros HQ HT HN Hi Hpeek Hm.
  pose proof (served_hit env s r w q0 rest _ m HQ HT HN Hpeek Hm) as HS.
  eexists _, (SetReply m r). split; [exact (Served_run _ _ _ _ _ _ HS) |].
  simpl. split; [exact Hi |].
  split; [apply list_lookup_insert_eq; eapply lookup_lt_Some; eauto |].
  rewrite HQ. repeat split.
  intros Hne Heq. apply Hne. rewrite <- Heq. reflexivity.
Qed.

Lemma forwarded_ok (env : Env) (r : Msg) (n : nat)
  (wire : bytes) (status : string) (resp : bytes) (m : Msg) :
  env_Pack env r = inl wire ->
  env_Post env n = PostDone 200 status (ReadOk resp) ->
  env_Unpack env resp = inl m ->
  forwarded env r n = Reply wire resp m.
Proof.
  intros Hp Ht Hu. unfold forwarded. rewrite Hp, Ht. simpl. rewrite Hu.
  reflexivity.
Qed.

(** C10. When the forward succeeds with the decoded reply [m], what
    [ServeDNS] writes, last, is [SetReply m r]: its response code is
    success whatever the response code of [m]; for an A-type query this is
    also the message that the new cache entry points to. *)
Theorem forwarded_reply_forced_success
  (env : Env) (s : SecHandler) (r : Msg) (w : World)
  (wire : bytes) (status : string) (resp : bytes) (m : Msg) :
  env_Pack env r = inl wire ->
  env_Post env (posts w) = PostDone 200 status (ReadOk resp) ->
  env_Unpack env resp = inl m ->
  is_forwarded_query env r w ->
  exists w' evs out,
    ServeDNS env s r w = Some (tt, w') /\
    trace w' = trace w ++ evs ++ [EvWriteMsg out] /\
    count_ev is_write evs = 0%nat /\
    out = SetReply m r /\
    Rcode out = RcodeSuccess /\
    (forall q0 rest, Question r = q0 :: rest -> Qtype q0 = TypeA ->
       count_ev is_cache_set evs = 1%nat /\
       exists item, items (cache w') !! Name q0 = Some item /\
                    heap w' !! Object item = Some out).
Proof.
  intros Hp Ht Hu Hfw.
  pose proof (forwarded_ok env r (posts w) _ _ _ _ Hp Ht Hu) as Hf.
  assert (Hnone : forall f, (forall e, is_forward_ev e = true -> f e = false) ->
            count_ev f (forward_events env r (posts w)) = 0%nat)
    by (intros; apply forward_events_count; auto).
  destruct Hfw as [HA | (q0 & rest & HQ & HT & HN & Hpeek)].
  - pose proof (served_relay env s r w wire resp m HA Hf) as HS.
    cbv zeta in HS.
    eexists. exists (forward_events env r (posts w)), (SetReply m r).
    split; [exact (Served_run _ _ _ _ _ _ HS) |].
    split; [reflexivity |].
    split; [apply Hnone; intros [] ?; simpl in *; congruence |].
    split; [reflexivity |]. split; [reflexivity |].
    intros q0 rest HQ HT. unfold first_question_is_A in HA.
    rewrite HQ in HA. apply Z.eqb_neq in HA. contradiction.
  - pose proof (served_miss env s r w q0 rest wire resp m HQ HT HN Hpeek Hf)
      as HS.
    cbv zeta in HS.
    eexists. exists (EvCacheGet (Name q0) :: forward_events env r (posts w) ++
               [EvCacheSet (Name q0) (length (heap w))]), (SetReply m r).
    split; [exact (Served_run _ _ _ _ _ _ HS) |].
    split.
    { cbn [trace]. f_equal. rewrite <- app_comm_cons, <- app_assoc. reflexivity. }
    split.
    { rewrite count_ev_cons, count_ev_app, Hnone
        by (intros [] ?; simpl in *; congruence). reflexivity. }
    split; [reflexivity |]. split; [reflexivity |].
    intros q0' rest' HQ' _. rewrite HQ in HQ'. inversion HQ'; subst q0' rest'.
    split.
    { rewrite count_ev_cons, count_ev_app, Hnone
        by (intros [] ?; simpl in *; congruence). reflexivity. }
    eexists. cbn [cache items heap]. split; [apply lookup_insert_eq |].
    cbn [Object]. apply list_lookup_middle. reflexivity.
Qed.

(** When the forward fails: the failure reply (response code 2, for the
    query's identifier) is written, and the cache is as before.  Only the
    A-type branch tells the error log. *)
Lemma forward_failure_answered
  (env : Env) (s : SecHandler) (r : Msg) (w : World) (err : error) :
  forward_result env r w = (None, Some err) ->
  is_forwarded_query env r w ->
  exists w' evs,
    ServeDNS env s r w = Some (tt, w') /\
    trace w' = trace w ++ evs ++ [EvWriteMsg (servfail r)] /\
    count_ev is_write evs = 0%nat /\
    Rcode (servfail r) = RcodeServerFailure /\ Id (servfail r) = Id r /\
    cache w' = cache w /\
    count_ev is_cache_set evs = 0%nat /\
    count_ev is_error_log evs =
      (if first_question_is_A r then 1%nat else 0%nat).
Proof.
  intros Hf Hfw.
  assert (Hnone : forall f, (forall e, is_forward_ev e = true -> f e = false) ->
            count_ev f (forward_events env r (posts w)) = 0%nat)
    by (intros; apply forward_events_count; auto).
  destruct Hfw as [HA | (q0 & rest & HQ & HT & HN & Hpeek)].
  - pose proof (served_relay_failed env s r w err HA Hf) as HS.
    cbv zeta in HS.
    eexists. exists (forward_events env r (posts w)).
    split; [exact (Served_run _ _ _ _ _ _ HS) |].
    split; [reflexivity |]. rewrite HA.
    rewrite !Hnone by (intros [] ?; simpl in *; congruence).
    repeat split.
  - pose proof (served_miss_failed env s r w q0 rest err HQ HT HN Hpeek Hf)
      as HS.
    cbv zeta in HS.
    eexists. exists (EvCacheGet (Name q0) :: forward_events env r (posts w) ++
               [EvPrintf ("requested name = " +:+ Name q0); EvErrorLog err]).
    split; [exact (Served_run _ _ _ _ _ _ HS) |].
    split.
    { cbn [trace]. f_equal. rewrite <- app_comm_cons, <- app_assoc. reflexivity. }
    assert (HA : first_question_is_A r = true).
    { unfold first_question_is_A. rewrite HQ. apply Z.eqb_eq. exact HT. }
    rewrite HA.
    rewrite !count_ev_cons, !count_ev_app, !Hnone
      by (intros [] ?; simpl in *; congruence).
    repeat split.
Qed.

(** Every run of [ServeDNS] in a well-formed world returns and writes one
    message. *)
Lemma ServeDNS_writes_once (env : Env) (s : SecHandler) (r : Msg) (w : World) :
  wf_world s w ->
  exists w' evs,
    ServeDNS env s r w = Some (tt, w') /\
    trace w' = trace w ++ evs /\
    count_ev is_write evs = 1%nat /\
    wf_world s w'.
Proof.
  intros Hwf.
  destruct (ServeDNS_Served env s r w Hwf) as (w' & evs & Hrun & HS).
  exists w', evs. split; [exact Hrun |].
  split; [eapply Served_trace; eauto |].
  split; [eapply Served_writes_once; eauto | eapply Served_wf; eauto].
Qed.

(** C3, where the program departs from it.  The upstream is unreachable
    and the query is of type AAAA: [ServeDNS] forwards, the POST fails,
    the failure reply is written and nothing is cached, but the error log
    is not told; for the same failure on an A-type query it is. *)
Theorem relay_failure_not_logged :
  let r := query 7 "example.com." 28 in
  let r' := query 7 "example.com." TypeA in
  (exists w',
     ServeDNS env_down handler0 r running = Some (tt, w') /\
     trace w' =
       trace running ++
       [EvPack r;
        EvPost CLOUDFLARE_DOH_URL "application/dns-udpwireformat" [x03];
        EvWriteMsg (servfail r)] /\
     Rcode (servfail r) = RcodeServerFailure /\
     cache w' = cache running) /\
  (exists w',
     ServeDNS env_down handler0 r' running = Some (tt, w') /\
     trace w' =
       trace running ++
       [EvCacheGet "example.com."; EvPack r';
        EvPost CLOUDFLARE_DOH_URL "application/dns-udpwireformat" [x03];
        EvPrintf "requested name = example.com.";
        EvErrorLog transport_error;
        EvWriteMsg (servfail r')]).
Proof.
  split.
  - eexists. split; [vm_compute; reflexivity |]. repeat split.
  - eexists. split; [vm_compute; reflexivity |]. reflexivity.
Qed.

(** ** Sequences of queries *)

Lemma forward_events_no_cache_set env r n k x :
  ~ In (EvCacheSet k x) (forward_events env r n).
Proof.
  intros Hin.
  pose proof (forward_events_kind env r n) as Hall.
  rewrite List.Forall_forall in Hall. apply Hall in Hin. discriminate.
Qed.

(** A cache entry that is there after a query was there before, or is for
    the name of the query's first question, of type A. *)
Lemma Served_cache env s r w w' evs :
  Served env s r w w' evs ->
  (forall k x, In (EvCacheSet k x) evs ->
     exists q0 rest, Question r = q0 :: rest /\ Qtype q0 = TypeA /\ Name q0 = k) /\
  (forall k item, items (cache w') !! k = Some item ->
     items (cache w) !! k = Some item \/
     exists q0 rest, Question r = q0 :: rest /\ Qtype q0 = TypeA /\ Name q0 = k).
Proof.
  intros HS. destruct HS; (split; [intros k x Hin | intros k item Hk; auto]).
  - simpl in Hin. destruct Hin as [Hin | []]. discriminate.
  - simpl in Hin. destruct Hin as [Hin | [Hin | []]]; discriminate.
  - subst evs. destruct Hin as [Hin | Hin]; [discriminate |].
    apply in_app_or in Hin. destruct Hin as [Hin | Hin].
    + destruct (forward_events_no_cache_set _ _ _ _ _ Hin).
    + destruct Hin as [Hin | [Hin | []]]; [| discriminate].
      inversion Hin; subst. eauto.
  - simpl in Hk. destruct (decide (Name q0 = k)) as [Heq | Hne].
    + right. eauto.
    + rewrite lookup_insert_ne in Hk by exact Hne. auto.
  - subst evs. destruct Hin as [Hin | Hin]; [discriminate |].
    apply in_app_or in Hin. destruct Hin as [Hin | Hin].
    + destruct (forward_events_no_cache_set _ _ _ _ _ Hin).
    + destruct Hin as [Hin | [Hin | [Hin | []]]]; discriminate.
  - subst evs. apply in_app_or in Hin. destruct Hin as [Hin | Hin].
    + destruct (forward_events_no_cache_set _ _ _ _ _ Hin).
    + destruct Hin as [Hin | []]. discriminate.
  - subst evs. apply in_app_or in Hin. destruct Hin as [Hin | Hin].
    + destruct (forward_events_no_cache_set _ _ _ _ _ Hin).
    + destruct Hin as [Hin | []]. discriminate.
Qed.

(** A query that is not of type A: no cache call, the cache as before, one
    encode, and one POST if the query encodes. *)
Lemma Served_relay_frame env s r w w' evs :
  Served env s r w w' evs ->
  first_question_is_A r = false ->
  cache w' = cache w /\
  count_ev is_cache_op evs = 0%nat /\
  count_ev is_pack evs = 1%nat /\
  count_ev is_post evs =
    match env_Pack env r with inl _ => 1%nat | inr _ => 0%nat end /\
  posts w' = forward_posts env r (posts w).
Proof.
  intros HS HA.
  assert (Habs : forall q0 rest, Question r = q0 :: rest -> Qtype q0 = TypeA -> False).
  { intros q0 rest HQ HT. unfold first_question_is_A in HA. rewrite HQ in HA.
    apply Z.eqb_neq in HA. contradiction. }
  destruct HS; try (exfalso; eapply Habs; eassumption).
  - unfold first_question_is_host_A in H. unfold first_question_is_A in HA.
    destruct (Question r); [discriminate |].
    rewrite HA in H. discriminate.
  - subst evs. rewrite !count_ev_app, forward_events_pack, forward_events_post,
      forward_events_count by (intros [] ?; simpl in *; congruence).
    destruct (forwarded_reply _ _ _ _ _ _ H0) as (_ & Hp & _). simpl.
    rewrite Hp. unfold forward_posts in Hp.
    repeat split; try lia; destruct (env_Pack env r); lia.
  - subst evs. rewrite !count_ev_app, forward_events_pack, forward_events_post,
      forward_events_count by (intros [] ?; simpl in *; congruence).
    simpl. repeat split; try lia; destruct (env_Pack env r); lia.
Qed.

(** What a sequence of queries keeps, by induction on the sequence. *)
Lemma serve_all_inv env s rs :
  forall w, wf_world s w ->
  exists w' evs,
    serve_all env s rs w = Some (tt, w') /\
    wf_world s w' /\
    trace w' = trace w ++ evs /\
    count_ev is_write evs = length rs /\
    (forall k x, In (EvCacheSet k x) evs ->
       exists r q0 rest,
         In r rs /\ Question r = q0 :: rest /\ Qtype q0 = TypeA /\ Name q0 = k) /\
    (forall k item, items (cache w') !! k = Some item ->
       items (cache w) !! k = Some item \/
       exists r q0 rest,
         In r rs /\ Question r = q0 :: rest /\ Qtype q0 = TypeA /\ Name q0 = k) /\
    (forall h m, Host s = Some h -> heap w !! h = Some m ->
       exists m', heap w' !! h = Some m' /\ same_records m m' /\
         (Forall (fun r => first_question_is_host_A r = false) rs -> m' = m)).
Proof.
  induction rs as [| r rs IH]; intros w Hwf.
  - exists w, []. simpl. rewrite app_nil_r.
    split; [reflexivity |]. split; [exact Hwf |].
    split; [reflexivity |]. split; [reflexivity |].
    split; [intros k x [] |]. split; [auto |].
    intros h m _ Hm. exists m. split; [exact Hm |].
    split; [apply same_records_refl | reflexivity].
  - destruct (ServeDNS_Served env s r w Hwf) as (w1 & evs1 & Hrun & HS).
    pose proof (Served_wf _ _ _ _ _ _ Hwf HS) as Hwf1.
    destruct (IH w1 Hwf1) as (w' & evs & Hall & Hwf' & Ht & Hw & Hset & Hkeys & Hhost).
    destruct (Served_cache _ _ _ _ _ _ HS) as [Hset1 Hkeys1].
    exists w', (evs1 ++ evs). simpl. unfold bind. rewrite Hrun.
    split; [exact Hall |]. split; [exact Hwf' |].
    split.
    { rewrite Ht, (Served_trace _ _ _ _ _ _ HS), app_assoc. reflexivity. }
    split.
    { rewrite count_ev_app, Hw, (Served_writes_once _ _ _ _ _ _ HS). reflexivity. }
    split.
    { intros k x Hin. apply in_app_or in Hin. destruct Hin as [Hin | Hin].
      - destruct (Hset1 _ _ Hin) as (q0 & rest & HQ & HT & HN).
        exists r, q0, rest. auto.
      - destruct (Hset _ _ Hin) as (r' & q0 & rest & Hr & HQ & HT & HN).
        exists r', q0, rest. auto. }
    split.
    { intros k item Hk. destruct (Hkeys _ _ Hk) as [Hk1 | (r' & q0 & rest & Hr & HQ & HT & HN)].
      - destruct (Hkeys1 _ _ Hk1) as [Hk0 | (q0 & rest & HQ & HT & HN)];
          [left; exact Hk0 |].
        right. exists r, q0, rest. auto.
      - right. exists r', q0, rest. auto. }
    intros h m Hh Hm.
    pose proof (Served_Host _ _ _ _ _ _ _ _ Hwf HS Hh Hm) as Hm1.
    destruct (Hhost _ _ Hh Hm1) as (m' & Hm' & Hsame & Hid).
    exists m'. split; [exact Hm' |]. split.
    + eapply same_records_trans; [| exact Hsame].
      destruct (first_question_is_host_A r);
        [apply same_records_SetReply | apply same_records_refl].
    + intros Hno. inversion Hno as [| ? ? Hr Hrs]; subst.
      rewrite (Hid Hrs), Hr. reflexivity.
Qed.

(** C2. Whatever the sequence of queries: each [cache.SetDefault] in the
    run, and each entry that the cache has gained by its end, is for the
    name of the first question, of type A, of one of the queries.  A query
    whose first question is missing or not of type A makes no cache call
    and leaves the cache as it is; two such queries in a row each encode
    and forward on their own, with one POST each when the query encodes. *)
Theorem only_A_queries_cached (env : Env) (s : SecHandler) (w : World) :
  wf_world s w ->
  (forall rs,
     exists w' evs,
       serve_all env s rs w = Some (tt, w') /\
       trace w' = trace w ++ evs /\
       (forall k x, In (EvCacheSet k x) evs ->
          exists r q0 rest,
            In r rs /\ Question r = q0 :: rest /\ Qtype q0 = TypeA /\
            Name q0 = k) /\
       (forall k item, items (cache w') !! k = Some item ->
          items (cache w) !! k = Some item \/
          exists r q0 rest,
            In r rs /\ Question r = q0 :: rest /\ Qtype q0 = TypeA /\
            Name q0 = k)) /\
  (forall r, first_question_is_A r = false ->
     exists w1 w2 evs1 evs2,
       ServeDNS env s r w = Some (tt, w1) /\
       ServeDNS env s r w1 = Some (tt, w2) /\
       trace w1 = trace w ++ evs1 /\ trace w2 = trace w1 ++ evs2 /\
       count_ev is_cache_op evs1 = 0%nat /\ count_ev is_cache_op evs2 = 0%nat /\
       cache w1 = cache w /\ cache w2 = cache w /\
       count_ev is_pack evs1 = 1%nat /\ count_ev is_pack evs2 = 1%nat /\
       (forall wire, env_Pack env r = inl wire ->
          count_ev is_post evs1 = 1%nat /\ count_ev is_post evs2 = 1%nat /\
          posts w1 = S (posts w) /\ posts w2 = S (S (posts w)))).
Proof.
  intros Hwf. split.
  - intros rs.
    destruct (serve_all_inv env s rs w Hwf)
      as (w' & evs & Hrun & _ & Ht & _ & Hset & Hkeys & _).
    exists w', evs. auto.
  - intros r HA.
    destruct (ServeDNS_Served env s r w Hwf) as (w1 & evs1 & Hrun1 & HS1).
    pose proof (Served_wf _ _ _ _ _ _ Hwf HS1) as Hwf1.
    destruct (ServeDNS_Served env s r w1 Hwf1) as (w2 & evs2 & Hrun2 & HS2).
    destruct (Served_relay_frame _ _ _ _ _ _ HS1 HA) as (Hc1 & Ho1 & Hk1 & Hp1 & Hn1).
    destruct (Served_relay_frame _ _ _ _ _ _ HS2 HA) as (Hc2 & Ho2 & Hk2 & Hp2 & Hn2).
    exists w1, w2, evs1, evs2.
    split; [exact Hrun1 |]. split; [exact Hrun2 |].
    split; [eapply Served_trace; eauto |].
    split; [eapply Served_trace; eauto |].
    split; [exact Ho1 |]. split; [exact Ho2 |].
    split; [exact Hc1 |]. split; [congruence |].
    split; [exact Hk1 |]. split; [exact Hk2 |].
    intros wire Hw. unfold forward_posts in Hn1, Hn2.
    rewrite Hw in Hp1, Hp2, Hn1, Hn2.
    repeat split; congruence.
Qed.

(** C8, as stated, fails: serving one query for the upstream's own name
    rewrites the stored [Host] message; its identifier, 4660 after the
    bootstrap, is the query's afterwards. *)
Lemma host_record_rewritten :
  let r := query 7 CLOUDFLARE_DOH_HOST TypeA in
  exists w',
    ServeDNS env_up handler0 r running = Some (tt, w') /\
    Host handler0 = Some 1%nat /\
    heap running !! 1%nat = Some host_reply /\
    heap w' !! 1%nat = Some (SetReply host_reply r) /\
    Id host_reply = 4660 /\ Id (SetReply host_reply r) = 7 /\
    heap w' !! 1%nat <> heap running !! 1%nat.
Proof.
  eexists. split; [vm_compute; reflexivity |].
  repeat split. discriminate.
Qed.

(** C8, amended.  Over any sequence of queries the stored [Host] message
    keeps its answer, authority and additional records and the header bits
    that [SetReply] does not write; it is not touched at all by queries
    other than those for the upstream's own name, and such a query turns it
    into its [SetReply]. *)
Theorem host_records_kept
  (env : Env) (s : SecHandler) (rs : list Msg) (w : World) (h : nat) (m : Msg) :
  wf_world s w ->
  Host s = Some h ->
  heap w !! h = Some m ->
  exists w' m',
    serve_all env s rs w = Some (tt, w') /\
    heap w' !! h = Some m' /\
    Answer m' = Answer m /\ Ns m' = Ns m /\ Extra m' = Extra m /\
    same_records m m' /\
    (Forall (fun r => first_question_is_host_A r = false) rs -> m' = m) /\
    (forall r, rs = [r] -> first_question_is_host_A r = true ->
       m' = SetReply m r).
Proof.
  intros Hwf Hh Hm.
  destruct (serve_all_inv env s rs w Hwf)
    as (w' & evs & Hrun & _ & _ & _ & _ & _ & Hhost).
  destruct (Hhost h m Hh Hm) as (m' & Hm' & Hsame & Hid).
  exists w', m'. split; [exact Hrun |]. split; [exact Hm' |].
  pose proof Hsame as (HA & HN & HE & _).
  split; [exact HA |]. split; [exact HN |]. split; [exact HE |].
  split; [exact Hsame |]. split; [exact Hid |].
  intros r -> Hq.
  destruct (ServeDNS_Served env s r w Hwf) as (w1 & evs1 & Hrun1 & HS1).
  pose proof (Served_Host _ _ _ _ _ _ _ _ Hwf HS1 Hh Hm) as Hm1.
  simpl in Hrun. unfold bind, ret in Hrun. rewrite Hrun1 in Hrun.
  inversion Hrun; subst w1. rewrite Hq in Hm1. congruence.
Qed.

(** ** Bootstrap *)

(** The two ways through the bootstrap: the attempt after [k] failures
    succeeds, or six attempts fail. *)
Lemma RunDNS_cases (env : Env) (port : Z) (w : World) :
  (forall k reply,
     (k <= 5)%nat ->
     attempts_fail env (exchanges w) k ->
     env_Exchange env (exchanges w + k) = inl reply ->
     exists srv p w' evs,
       RunDNS env port w = Some ((Some srv, None), w') /\
       srv = mkServer (":" +:+ pretty port) "udp" (mkSecHandler "UDP" (Some p)) /\
       heap w' !! p = Some reply /\
       trace w' =
         trace w ++ evs ++
         [EvCacheNew (1 * Hour) (10 * Minute); EvListenAndServe srv] /\
       bootstrap_counts evs (S k) k /\
       exchanges w' = (exchanges w + S k)%nat /\
       cache w' = mkCache (1 * Hour) ∅ /\
       wf_world (Handler srv) w') /\
  (attempts_fail env (exchanges w) 6 ->
   exists w' evs,
     RunDNS env port w = Some ((None, Some could_not_start), w') /\
     trace w' = trace w ++ evs /\
     bootstrap_counts evs 6 5 /\
     exchanges w' = (exchanges w + 6)%nat /\
     cache w' = cache w).
Proof.
  split.
  - intros k reply Hk Hfail Hok.
    unfold RunDNS. unfold bind at 1. rewrite getDohHostAddr_eq.
    destruct k as [| k].
    + rewrite Nat.add_0_r in Hok. rewrite Hok. simpl.
      rewrite start_server_eq. simpl.
      eexists _, _, _, [_]. split; [reflexivity |].
      split; [reflexivity |].
      cbn [heap trace exchanges cache Handler Host].
      split.
      { rewrite lookup_app_r by lia.
        replace (S (length (heap w)) - length (heap w))%nat with 1%nat by lia.
        reflexivity. }
      split; [rewrite <- app_assoc; reflexivity |].
      split; [repeat split |].
      split; [lia |]. split; [reflexivity |].
      unfold wf_world. cbn [heap cache items Handler Host].
      split.
      * eexists. split; [reflexivity |]. rewrite length_app. simpl. lia.
      * intros key item Hi. rewrite lookup_empty in Hi. discriminate.
    + destruct (attempts_fail_S _ _ _ Hfail) as [[err He] Hrest].
      rewrite He. cbn [fst snd].
      unfold WriteErrorLogMsg. unfold bind at 1. unfold emit at 1.
      cbn [trace set_trace heap cache ticks posts exchanges].
      unfold bind at 1.
      edestruct (retry_loop_succeeds env k 5%nat 1 None (Some err))
        as (p & w1 & evs & Hrun & Hp & Hx & Hc & Ht & Hcnt);
        [| | | | rewrite Hrun]; [lia | lia | exact Hrest | |].
      { simpl. replace (S (exchanges w + k)) with (exchanges w + S k)%nat by lia.
        exact Hok. }
      simpl. rewrite start_server_eq. simpl in Hx, Hc, Ht |- *.
      eexists _, p, _.
      exists (EvExchange (bootstrap_query env (exchanges w)) CLOUDFLARE_DNS
                :: EvErrorLogMsg bootstrap_failed err :: evs).
      split; [reflexivity |].
      split; [reflexivity |].
      cbn [heap trace exchanges cache Handler Host].
      split; [exact Hp |].
      split.
      { rewrite Ht. rewrite <- !app_assoc. reflexivity. }
      split.
      { destruct Hcnt as (H1 & H2 & H3 & H4 & H5). unfold bootstrap_counts.
        rewrite !count_ev_cons, H1, H2, H3, H4, H5. repeat split. }
      split; [lia |]. split; [reflexivity |].
      unfold wf_world. cbn [heap cache items Handler Host].
      split.
      * eexists. split; [reflexivity |]. eapply lookup_lt_Some; eauto.
      * intros key item Hi. rewrite lookup_empty in Hi. discriminate.
  - intros Hfail.
    unfold RunDNS. unfold bind at 1. rewrite getDohHostAddr_eq.
    destruct (attempts_fail_S _ _ _ Hfail) as [[err He] Hrest].
    rewrite He. cbn [fst snd].
    unfold WriteErrorLogMsg. unfold bind at 1. unfold emit at 1.
    cbn [trace set_trace heap cache ticks posts exchanges].
    unfold bind at 1.
    edestruct (retry_loop_exhausted env 5%nat 5%nat 1 None (Some err))
      as (h' & e' & w1 & evs & Hrun & Hs & _ & Hx & Hc & Ht & Hcnt);
      [| | | rewrite Hrun]; [reflexivity | lia | exact Hrest |].
    destruct (Hs ltac:(lia)) as [err' ->]. simpl.
    simpl in Hx, Hc, Ht.
    eexists.
    exists (EvExchange (bootstrap_query env (exchanges w)) CLOUDFLARE_DNS
              :: EvErrorLogMsg bootstrap_failed err :: evs).
    split; [reflexivity |].
    cbn [heap trace exchanges cache].
    split.
    { rewrite Ht. rewrite <- !app_assoc. reflexivity. }
    split.
    { destruct Hcnt as (H1 & H2 & H3 & H4 & H5). unfold bootstrap_counts.
      rewrite !count_ev_cons, H1, H2, H3, H4, H5. repeat split. }
    split; [lia | exact Hc].
Qed.

(** [RunDNS] returns, whatever the outside world does; when it returns a
    server, the handler of that server is in a well-formed world. *)
Lemma RunDNS_returns (env : Env) (port : Z) (w : World) :
  exists res w',
    RunDNS env port w = Some (res, w') /\
    (forall srv, fst res = Some srv -> wf_world (Handler srv) w').
Proof.
  destruct (RunDNS_cases env port w) as [Hok Hko].
  destruct (attempts_dec env (exchanges w) 6)
    as [Hall | (k & reply & Hk & Hfail & Hreply)].
  - destruct (Hko Hall) as (w' & evs & Hrun & _).
    exists (None, Some could_not_start), w'. split; [exact Hrun |].
    intros srv Hsrv. discriminate.
  - destruct (Hok k reply ltac:(lia) Hfail Hreply)
      as (srv & p & w' & evs & Hrun & _ & _ & _ & _ & _ & _ & Hwf).
    exists (Some srv, None), w'. split; [exact Hrun |].
    intros srv' Hsrv. inversion Hsrv; subst srv'. exact Hwf.
Qed.

(** C4. [RunDNS] tries the plain DNS exchange; after a failure it sleeps
    one second and tries again, five more times at most.  If the attempt
    after [k] failures succeeds ([k] at most 5) there are [k + 1] exchanges
    and [k] sleeps and no more, the handler is made with the reply as its
    [Host] and a new cache, and the listener is started.  If six attempts
    fail there are six exchanges and five sleeps, the result is an error,
    and neither a cache nor a listener is made. *)
Theorem RunDNS_bootstrap_retries (env : Env) (port : Z) (w : World) :
  (exists res w', RunDNS env port w = Some (res, w')) /\
  ((forall k reply,
     (k <= 5)%nat ->
     attempts_fail env (exchanges w) k ->
     env_Exchange env (exchanges w + k) = inl reply ->
     exists srv p w' evs,
       RunDNS env port w = Some ((Some srv, None), w') /\
       srv = mkServer (":" +:+ pretty port) "udp" (mkSecHandler "UDP" (Some p)) /\
       heap w' !! p = Some reply /\
       trace w' =
         trace w ++ evs ++
         [EvCacheNew (1 * Hour) (10 * Minute); EvListenAndServe srv] /\
       bootstrap_counts evs (S k) k /\
       exchanges w' = (exchanges w + S k)%nat /\
       cache w' = mkCache (1 * Hour) ∅ /\
       wf_world (Handler srv) w') /\
  (attempts_fail env (exchanges w) 6 ->
   exists w' evs,
     RunDNS env port w = Some ((None, Some could_not_start), w') /\
     trace w' = trace w ++ evs /\
     bootstrap_counts evs 6 5 /\
     exchanges w' = (exchanges w + 6)%nat /\
     cache w' = cache w)).
Proof.
  split.
  - destruct (RunDNS_returns env port w) as (res & w' & Hrun & _). eauto.
  - exact (RunDNS_cases env port w).
Qed.

(** After a start, every sequence of queries is served, with one message
    written for each query, and every cache entry at the end is for the
    name of an A-type query of the sequence. *)
Lemma served_after_start
  (env : Env) (port : Z) (w0 : World) (srv : Server) (w : World) (rs : list Msg) :
  RunDNS env port w0 = Some ((Some srv, None), w) ->
  exists w' evs,
    serve_all env (Handler srv) rs w = Some (tt, w') /\
    trace w' = trace w ++ evs /\
    count_ev is_write evs = length rs /\
    (forall k item, items (cache w') !! k = Some item ->
       exists r q0 rest,
         In r rs /\ Question r = q0 :: rest /\ Qtype q0 = TypeA /\ Name q0 = k).
Proof.
  intros Hrun.
  destruct (RunDNS_returns env port w0) as (res & w1 & Hrun' & Hwf).
  rewrite Hrun in Hrun'. inversion Hrun'; subst res w1.
  specialize (Hwf srv eq_refl).
  destruct (RunDNS_cases env port w0) as [Hok Hko].
  assert (Hempty : items (cache w) = ∅).
  { destruct (attempts_dec env (exchanges w0) 6)
      as [Hall | (k & reply & Hk & Hfail & Hreply)].
    - destruct (Hko Hall) as (w' & evs & Hr & _). congruence.
    - destruct (Hok k reply ltac:(lia) Hfail Hreply)
        as (srv' & p & w' & evs & Hr & _ & _ & _ & _ & _ & Hc & _).
      rewrite Hrun in Hr. inversion Hr; subst w'. rewrite Hc. reflexivity. }
  destruct (serve_all_inv env (Handler srv) rs w Hwf)
    as (w' & evs & Hall & _ & Ht & Hw & _ & Hkeys & _).
  exists w', evs. split; [exact Hall |]. split; [exact Ht |].
  split; [exact Hw |].
  intros k item Hk. destruct (Hkeys k item Hk) as [Hold | Hnew]; [| exact Hnew].
  rewrite Hempty, lookup_empty in Hold. discriminate.
Qed.

(** ** The theorems at sample inputs *)

Lemma wf_warmed : wf_world handler0 warmed.
Proof.
  destruct (ServeDNS_writes_once env_up handler0
              (query 7 "example.com." TypeA) running wf_running)
    as (w' & evs & Hrun & _ & _ & Hwf).
  unfold warmed. rewrite Hrun. exact Hwf.
Qed.

(** C2 at a sample: an AAAA query, then an A query for the same name; the
    one [cache.SetDefault] of the run is the second query's. *)
Lemma only_A_queries_cached_witness :
  wf_world handler0 running /\
  exists w' evs,
    serve_all env_up handler0
      [query 7 "example.com." 28; query 8 "example.com." TypeA] running =
      Some (tt, w') /\
    trace w' = trace running ++ evs /\
    count_ev is_cache_set evs = 1%nat.
Proof.
  split; [exact wf_running |].
  destruct (only_A_queries_cached env_up handler0 running wf_running)
    as [Hseq _].
  destruct (Hseq [query 7 "example.com." 28; query 8 "example.com." TypeA])
    as (w' & evs & Hrun & Ht & _).
  exists w', evs. split; [exact Hrun |]. split; [exact Ht |].
  assert (Hw : Some (tt, w') =
               serve_all env_up handler0
                 [query 7 "example.com." 28; query 8 "example.com." TypeA]
                 running) by (symmetry; exact Hrun).
  vm_compute in Hw. inversion Hw; subst w'.
  vm_compute in Ht. inversion Ht. reflexivity.
Defined.

(** C4 at two samples: three failures and then a reply; nothing but
    failures. *)
Lemma RunDNS_bootstrap_retries_witness :
  (exists srv w',
     RunDNS (env_late 3) 53 world0 = Some ((Some srv, None), w') /\
     count_ev is_exchange (trace w') = 4%nat /\
     count_ev is_sleep (trace w') = 3%nat /\
     count_ev is_listen (trace w') = 1%nat) /\
  (exists w',
     RunDNS env_down 53 world0 = Some ((None, Some could_not_start), w') /\
     count_ev is_exchange (trace w') = 6%nat /\
     count_ev is_sleep (trace w') = 5%nat /\
     count_ev is_listen (trace w') = 0%nat).
Proof.
  destruct (RunDNS_bootstrap_retries (env_late 3) 53 world0) as [_ [Hok _]].
  destruct (RunDNS_bootstrap_retries env_down 53 world0) as [_ [_ Hko]].
  split.
  - destruct (Hok 3%nat host_reply) as (srv & p & w' & evs & Hrun & _ & _ & Ht & Hcnt & _).
    + lia.
    + intros j Hj. exists (LibError "read udp: i/o timeout"). simpl.
      destruct j as [| [| [| j]]]; [reflexivity | reflexivity | reflexivity | lia].
    + reflexivity.
    + exists srv, w'. split; [exact Hrun |].
      destruct Hcnt as (H1 & H2 & _ & H4 & _).
      rewrite Ht, !count_ev_app, H1, H2, H4.
      repeat split.
  - destruct Hko as (w' & evs & Hrun & Ht & Hcnt & _).
    + intros j Hj. exists (LibError "read udp: i/o timeout"). reflexivity.
    + exists w'. split; [exact Hrun |].
      destruct Hcnt as (H1 & H2 & _ & H4 & _).
      rewrite Ht, !count_ev_app, H1, H2, H4. repeat split.
Defined.

(** C5 at a sample: a second A query for a cached name, with the upstream
    unreachable. *)
Lemma cache_hit_served_from_cache_witness :
  cache_peek env_down warmed "example.com." = Some 2%nat /\
  heap warmed !! 2%nat = Some (SetReply example_reply (query 7 "example.com." TypeA)) /\
  exists w' out,
    ServeDNS env_down handler0 (query 9 "example.com." TypeA) warmed =
      Some (tt, w') /\
    trace w' = trace warmed ++ [EvCacheGet "example.com."; EvWriteMsg out] /\
    Id out = 9 /\ Answer out = Answer example_reply /\
    posts w' = posts warmed.
Proof.
  split; [vm_compute; reflexivity |].
  split; [vm_compute; reflexivity |].
  destruct (cache_hit_served_from_cache env_down handler0
              (query 9 "example.com." TypeA) warmed
              (mkQuestion "example.com." TypeA ClassINET) [] 2%nat
              (SetReply example_reply (query 7 "example.com." TypeA)))
    as (w' & out & Hrun & Ht & Hout & Hid & _ & _ & Hans & _ & _ & Hposts).
  - reflexivity.
  - reflexivity.
  - discriminate.
  - vm_compute. reflexivity.
  - vm_compute. reflexivity.
  - exists w', out. split; [exact Hrun |]. split; [exact Ht |].
    split; [exact Hid |]. split; [exact Hans | exact Hposts].
Defined.

(** C9 at the same sample: the stored message is no longer the one that
    was stored for the first requester. *)
Lemma cache_hit_rewrites_stored_entry_witness :
  items (cache warmed) !! "example.com." = Some (mkItem 2%nat 3600000000000) /\
  exists w' stored,
    ServeDNS env_down handler0 (query 9 "example.com." TypeA) warmed =
      Some (tt, w') /\
    items (cache w') !! "example.com." = Some (mkItem 2%nat 3600000000000) /\
    heap w' !! 2%nat = Some stored /\
    Id stored = 9 /\
    stored <> SetReply example_reply (query 7 "example.com." TypeA).
Proof.
  split; [vm_compute; reflexivity |].
  destruct (cache_hit_rewrites_stored_entry env_down handler0
              (query 9 "example.com." TypeA) warmed
              (mkQuestion "example.com." TypeA ClassINET) []
              (mkItem 2%nat 3600000000000)
              (SetReply example_reply (query 7 "example.com." TypeA)))
    as (w' & stored & Hrun & Hi & Hh & _ & Hid & _ & _ & Hne & _).
  - reflexivity.
  - reflexivity.
  - discriminate.
  - vm_compute. reflexivity.
  - vm_compute. reflexivity.
  - vm_compute. reflexivity.
  - exists w', stored. split; [exact Hrun |]. split; [exact Hi |].
    split; [exact Hh |]. split; [exact Hid |].
    apply Hne. discriminate.
Defined.

(** C10 at a sample: the upstream says "no such name" (response code 3),
    the requester is told success, and that reply is cached. *)
Lemma forwarded_reply_forced_success_witness :
  Rcode nxdomain_reply = 3 /\
  exists w' evs out,
    ServeDNS env_nx handler0 (query 3 "nosuch.example." TypeA) running =
      Some (tt, w') /\
    trace w' = trace running ++ evs ++ [EvWriteMsg out] /\
    out = SetReply nxdomain_reply (query 3 "nosuch.example." TypeA) /\
    Rcode out = RcodeSuccess /\
    exists item, items (cache w') !! "nosuch.example." = Some item /\
                 heap w' !! Object item = Some out.
Proof.
  split; [reflexivity |].
  destruct (forwarded_reply_forced_success env_nx handler0
              (query 3 "nosuch.example." TypeA) running
              [x03] "200 OK" [x03] nxdomain_reply)
    as (w' & evs & out & Hrun & Ht & _ & Hout & Hrc & Hcache).
  - reflexivity.
  - reflexivity.
  - reflexivity.
  - right. exists (mkQuestion "nosuch.example." TypeA ClassINET), [].
    split; [reflexivity |]. split; [reflexivity |].
    split; [discriminate | vm_compute; reflexivity].
  - exists w', evs, out. split; [exact Hrun |]. split; [exact Ht |].
    split; [exact Hout |]. split; [exact Hrc |].
    destruct (Hcache (mkQuestion "nosuch.example." TypeA ClassINET) []
                eq_refl eq_refl) as [_ Hitem].
    exact Hitem.
Defined.

(** C8, amended, at a sample: a query for the upstream's name, then one
    for another name. *)
Lemma host_records_kept_witness :
  wf_world handler0 running /\
  heap running !! 1%nat = Some host_reply /\
  exists w' m',
    serve_all env_up handler0
      [query 7 CLOUDFLARE_DOH_HOST TypeA; query 8 "example.com." TypeA]
      running = Some (tt, w') /\
    heap w' !! 1%nat = Some m' /\
    Answer m' = Answer host_reply.
Proof.
  split; [exact wf_running |].
  split; [vm_compute; reflexivity |].
  destruct (host_records_kept env_up handler0
              [query 7 CLOUDFLARE_DOH_HOST TypeA; query 8 "example.com." TypeA]
              running 1%nat host_reply wf_running)
    as (w' & m' & Hrun & Hm' & Hans & _).
  - reflexivity.
  - vm_compute. reflexivity.
  - exists w', m'. split; [exact Hrun |]. split; [exact Hm' | exact Hans].
Defined.

(** ** Further properties of the handler *)

Lemma written_app evs1 evs2 : written (evs1 ++ evs2) = written evs1 ++ written evs2.
Proof.
  induction evs1 as [| e evs1 IH]; [reflexivity |].
  destruct e; simpl; rewrite ?IH; reflexivity.
Qed.

Lemma written_none evs :
  Forall (fun e => is_write e = false) evs -> written evs = [].
Proof.
  induction 1 as [| e evs He _ IH]; [reflexivity |].
  destruct e; simpl in *; try exact IH. discriminate.
Qed.

Lemma written_forward_events env r n : written (forward_events env r n) = [].
Proof.
  apply written_none.
  eapply Forall_impl; [apply forward_events_kind |].
  intros [] ?; simpl in *; congruence.
Qed.

Lemma is_reply_to_SetReply m r : is_reply_to r (SetReply m r).
Proof.
  unfold is_reply_to, SetReply; simpl. repeat split; auto.
  intros q0 rest ->. reflexivity.
Qed.

Lemma is_reply_to_servfail r : is_reply_to r (servfail r).
Proof.
  unfold is_reply_to, servfail, SetRcode, withRcode, SetReply; simpl.
  repeat split; auto.
  intros q0 rest ->. reflexivity.
Qed.

(** One run of [ServeDNS] writes one message, a reply to the query. *)
Lemma Served_reply env s r w w' evs :
  Served env s r w w' evs ->
  exists out, written evs = [out] /\ is_reply_to r out.
Proof.
  destruct 1; try subst evs;
    rewrite ?written_app; cbn [written];
    rewrite ?written_app, ?written_forward_events; cbn [written app];
    eexists; (split; [reflexivity |]);
    first [apply is_reply_to_SetReply | apply is_reply_to_servfail].
Qed.

Lemma serve_all_ServedAll env s rs :
  forall w, wf_world s w ->
  exists w' evs,
    serve_all env s rs w = Some (tt, w') /\
    ServedAll env s rs w w' evs /\
    trace w' = trace w ++ evs /\
    wf_world s w'.
Proof.
  induction rs as [| r rs IH]; intros w Hwf.
  - exists w, []. simpl. rewrite app_nil_r.
    split; [reflexivity |]. split; [constructor |]. split; [reflexivity | exact Hwf].
  - destruct (ServeDNS_Served env s r w Hwf) as (w1 & evs1 & Hrun & HS).
    pose proof (Served_wf _ _ _ _ _ _ Hwf HS) as Hwf1.
    destruct (IH w1 Hwf1) as (w' & evs & Hall & HSA & Ht & Hwf').
    exists w', (evs1 ++ evs). simpl. unfold bind. rewrite Hrun.
    split; [exact Hall |]. split; [econstructor; eauto |].
    split; [| exact Hwf'].
    rewrite Ht, (Served_trace _ _ _ _ _ _ HS), app_assoc. reflexivity.
Qed.

Lemma ServedAll_replies env s rs w w' evs :
  ServedAll env s rs w w' evs -> Forall2 is_reply_to rs (written evs).
Proof.
  induction 1 as [w | r rs w w1 w2 evs1 evs2 HS _ IH]; [constructor |].
  destruct (Served_reply _ _ _ _ _ _ HS) as (out & Hw & Hr).
  rewrite written_app, Hw. simpl. constructor; assumption.
Qed.

(** X1. Whatever the queries and whatever the outside world does, the
    handler writes one message for each query, in the order of the
    queries, and each is a reply to its query: same identifier and opcode,
    response bit set, the first question of the query alone, and a response
    code that is success or server failure. *)
Theorem every_query_gets_its_reply
  (env : Env) (s : SecHandler) (rs : list Msg) (w : World) :
  wf_world s w ->
  exists w' evs,
    serve_all env s rs w = Some (tt, w') /\
    trace w' = trace w ++ evs /\
    Forall2 is_reply_to rs (written evs).
Proof.
  intros Hwf.
  destruct (serve_all_ServedAll env s rs w Hwf) as (w' & evs & Hrun & HSA & Ht & _).
  exists w', evs. split; [exact Hrun |]. split; [exact Ht |].
  eapply ServedAll_replies; eauto.
Qed.

Lemma every_query_gets_its_reply_witness :
  wf_world handler0 running /\
  exists w' evs,
    serve_all env_502 handler0
      [two_questions; query 8 "example.com." TypeA; query 9 "example.com." 28]
      running = Some (tt, w') /\
    trace w' = trace running ++ evs /\
    map Id (written evs) = [7; 8; 9] /\
    map Rcode (written evs) = [0; 2; 2].
Proof.
  split; [exact wf_running |].
  destruct (every_query_gets_its_reply env_502 handler0
              [two_questions; query 8 "example.com." TypeA;
               query 9 "example.com." 28] running wf_running)
    as (w' & evs & Hrun & Ht & _).
  exists w', evs. split; [exact Hrun |]. split; [exact Ht |].
  assert (Hw : Some (tt, w') =
               serve_all env_502 handler0
                 [two_questions; query 8 "example.com." TypeA;
                  query 9 "example.com." 28] running) by (symmetry; exact Hrun).
  vm_compute in Hw. inversion Hw; subst w'.
  vm_compute in Ht. inversion Ht. split; reflexivity.
Defined.

Lemma forward_events_unpack env r n :
  (count_ev is_unpack (forward_events env r n) <=
   count_ev is_post (forward_events env r n))%nat.
Proof.
  unfold forward_events, transport_events.
  destruct (env_Pack env r) as [wire | e]; [| simpl; lia].
  destruct (transport_result_shape (env_Post env n)) as [[resp H] | [e H]];
    rewrite H; destruct (env_Post env n); simpl; lia.
Qed.

(** The codec and transport calls of one run of [ServeDNS]. *)
Lemma Served_forward_counts env s r w w' evs :
  Served env s r w w' evs ->
  (count_ev is_unpack evs <= count_ev is_post evs)%nat /\
  (count_ev is_post evs <= count_ev is_pack evs)%nat /\
  (count_ev is_pack evs <= if first_question_is_host_A r then 0 else 1)%nat /\
  posts w' = (posts w + count_ev is_post evs)%nat.
Proof.
  intros HS.
  assert (Hfw : forall n,
            (count_ev is_unpack (forward_events env r n) <=
             count_ev is_post (forward_events env r n))%nat /\
            (count_ev is_post (forward_events env r n) <= 1)%nat /\
            count_ev is_pack (forward_events env r n) = 1%nat /\
            forward_posts env r n = (n + count_ev is_post (forward_events env r n))%nat).
  { intros n. split; [apply forward_events_unpack |].
    rewrite forward_events_pack, forward_events_post. unfold forward_posts.
    destruct (env_Pack env r); repeat split; lia. }
  destruct HS as
    [h m Hq Hh Hm
    | q0 rest p m HQ HT HN Hpeek Hm
    | q0 rest wire resp m HQ HT HN Hpeek Hf evs
    | q0 rest err HQ HT HN Hpeek Hf evs
    | wire resp m HA Hf evs
    | err HA Hf evs];
    try (rewrite (other_name_not_host _ _ _ HQ HN));
    try (rewrite (not_A_not_host _ HA));
    try subst evs; cbn [posts];
    rewrite ?count_ev_cons, ?count_ev_app; cbn [count_ev is_unpack is_post is_pack];
    try (destruct (Hfw (posts w)) as (H1 & H2 & H3 & H4));
    try (destruct (forwarded_reply _ _ _ _ _ _ Hf) as (_ & Hp & _));
    try rewrite Hq; repeat split; lia.
Qed.

Lemma ServedAll_forward_counts env s rs w w' evs :
  ServedAll env s rs w w' evs ->
  (count_ev is_unpack evs <= count_ev is_post evs)%nat /\
  (count_ev is_post evs <= count_ev is_pack evs)%nat /\
  (count_ev is_pack evs <=
   length (List.filter (fun r => negb (first_question_is_host_A r)) rs))%nat /\
  posts w' = (posts w + count_ev is_post evs)%nat.
Proof.
  induction 1 as [w | r rs w w1 w2 evs1 evs2 HS _ IH]; [simpl; lia |].
  destruct (Served_forward_counts _ _ _ _ _ _ HS) as (H1 & H2 & H3 & H4).
  destruct IH as (I1 & I2 & I3 & I4).
  rewrite !count_ev_app. cbn [List.filter].
  destruct (first_question_is_host_A r); cbn [negb length]; repeat split; lia.
Qed.

(** X2. No retry and no fan-out: over any sequence of queries there is at
    most one encode per query that is not for the upstream's own name, at
    most one POST per encode and at most one decode per POST; the handler
    makes no POST that is not counted here. *)
Theorem at_most_one_post_per_query
  (env : Env) (s : SecHandler) (rs : list Msg) (w : World) :
  wf_world s w ->
  exists w' evs,
    serve_all env s rs w = Some (tt, w') /\
    trace w' = trace w ++ evs /\
    (count_ev is_unpack evs <= count_ev is_post evs)%nat /\
    (count_ev is_post evs <= count_ev is_pack evs)%nat /\
    (count_ev is_pack evs <=
     length (List.filter (fun r => negb (first_question_is_host_A r)) rs))%nat /\
    posts w' = (posts w + count_ev is_post evs)%nat.
Proof.
  intros Hwf.
  destruct (serve_all_ServedAll env s rs w Hwf) as (w' & evs & Hrun & HSA & Ht & _).
  exists w', evs. split; [exact Hrun |]. split; [exact Ht |].
  eapply ServedAll_forward_counts; eauto.
Qed.

Lemma at_most_one_post_per_query_witness :
  wf_world handler0 running /\
  exists w' evs,
    serve_all env_up handler0
      [query 1 CLOUDFLARE_DOH_HOST TypeA; query 2 "example.com." TypeA;
       query 3 "example.com." TypeA; query 4 "example.com." 28]
      running = Some (tt, w') /\
    trace w' = trace running ++ evs /\
    count_ev is_post evs = 2%nat.
Proof.
  split; [exact wf_running |].
  destruct (at_most_one_post_per_query env_up handler0
              [query 1 CLOUDFLARE_DOH_HOST TypeA; query 2 "example.com." TypeA;
               query 3 "example.com." TypeA; query 4 "example.com." 28]
              running wf_running)
    as (w' & evs & Hrun & Ht & _).
  exists w', evs. split; [exact Hrun |]. split; [exact Ht |].
  assert (Hw : Some (tt, w') =
               serve_all env_up handler0
                 [query 1 CLOUDFLARE_DOH_HOST TypeA; query 2 "example.com." TypeA;
                  query 3 "example.com." TypeA; query 4 "example.com." 28]
                 running) by (symmetry; exact Hrun).
  vm_compute in Hw. inversion Hw; subst w'.
  vm_compute in Ht. inversion Ht. reflexivity.
Defined.

Lemma forward_events_only env r n e :
  In e (forward_events env r n) -> is_forward_ev e = true.
Proof.
  intros Hin. pose proof (forward_events_kind env r n) as Hall.
  rewrite List.Forall_forall in Hall. auto.
Qed.

(** The cache calls of one run are for the name of the first question, and
    that name is not the upstream's. *)
Lemma Served_cache_keys env s r w w' evs k :
  Served env s r w w' evs ->
  (In (EvCacheGet k) evs \/ exists x, In (EvCacheSet k x) evs) ->
  asks_A_for k r = true /\ k <> CLOUDFLARE_DOH_HOST.
Proof.
  intros HS Hin.
  assert (Hfw : forall e, In e (forward_events env r (posts w)) ->
                          is_forward_ev e = true)
    by (apply forward_events_only).
  assert (Hkey : forall q0 rest, Question r = q0 :: rest -> Qtype q0 = TypeA ->
                   Name q0 <> CLOUDFLARE_DOH_HOST -> Name q0 = k ->
                   asks_A_for k r = true /\ k <> CLOUDFLARE_DOH_HOST).
  { intros q0 rest HQ HT HN <-. split; [| exact HN].
    unfold asks_A_for. rewrite HQ, HT, String.eqb_refl. reflexivity. }
  destruct HS as
    [h m Hq Hh Hm
    | q0 rest p m HQ HT HN Hpeek Hm
    | q0 rest wire resp m HQ HT HN Hpeek Hf evs
    | q0 rest err HQ HT HN Hpeek Hf evs
    | wire resp m HA Hf evs
    | err HA Hf evs];
    try subst evs;
    destruct Hin as [Hin | [x Hin]];
    repeat match goal with
      | H : In _ (_ :: _) |- _ => destruct H as [H | H]
      | H : In _ (_ ++ _) |- _ => apply in_app_or in H; destruct H as [H | H]
      | H : In _ [] |- _ => destruct H
      | H : In _ (forward_events _ _ _) |- _ => apply Hfw in H; discriminate H
      | H : @eq Event _ _ |- _ => first [discriminate H | inversion H; subst; clear H]
      end;
    eapply Hkey; eauto.
Qed.

Lemma asks_A_for_first r k :
  asks_A_for k r = false ->
  forall q0 rest, Question r = q0 :: rest -> Qtype q0 = TypeA -> Name q0 <> k.
Proof.
  unfold asks_A_for. intros H q0 rest HQ HT Heq. rewrite HQ, HT, Heq in H.
  rewrite String.eqb_refl in H. discriminate.
Qed.

(** The cache after one run: the entries of the names that the query does
    not ask an address for are as before, no entry is lost, and the cache
    is as before unless something was stored. *)
Lemma Served_cache_frame env s r w w' evs :
  Served env s r w w' evs ->
  defaultExpiration (cache w') = defaultExpiration (cache w) /\
  (forall k, asks_A_for k r = false ->
     items (cache w') !! k = items (cache w) !! k) /\
  (forall k, is_Some (items (cache w) !! k) -> is_Some (items (cache w') !! k)) /\
  (count_ev is_cache_set evs = 0%nat -> cache w' = cache w).
Proof.
  intros HS.
  assert (Hnone : count_ev is_cache_set (forward_events env r (posts w)) = 0%nat)
    by (apply forward_events_count; intros [] ?; simpl in *; congruence).
  destruct HS as
    [h m Hq Hh Hm
    | q0 rest p m HQ HT HN Hpeek Hm
    | q0 rest wire resp m HQ HT HN Hpeek Hf evs
    | q0 rest err HQ HT HN Hpeek Hf evs
    | wire resp m HA Hf evs
    | err HA Hf evs];
    try (cbn [cache]; repeat split; auto; fail).
  subst evs. cbn [cache defaultExpiration items].
  split; [reflexivity |]. split; [| split].
  - intros k Hk. apply lookup_insert_ne.
    apply (asks_A_for_first _ _ Hk _ _ HQ HT).
  - intros k Hsome. destruct (decide (Name q0 = k)) as [<- | Hne].
    + rewrite lookup_insert_eq. eauto.
    + rewrite lookup_insert_ne by exact Hne. exact Hsome.
  - rewrite count_ev_cons, count_ev_app, Hnone. simpl. discriminate.
Qed.

(** X3. One query changes the cache at no name but the one it asks an
    address for, never removes an entry, and leaves the cache exactly as it
    was unless it stored something; in particular a hit does not renew the
    expiration of the entry it reads. *)
Theorem other_cache_entries_kept
  (env : Env) (s : SecHandler) (r : Msg) (w : World) :
  wf_world s w ->
  exists w' evs,
    ServeDNS env s r w = Some (tt, w') /\
    trace w' = trace w ++ evs /\
    defaultExpiration (cache w') = defaultExpiration (cache w) /\
    (forall k, asks_A_for k r = false ->
       items (cache w') !! k = items (cache w) !! k) /\
    (forall k, is_Some (items (cache w) !! k) -> is_Some (items (cache w') !! k)) /\
    (count_ev is_cache_set evs = 0%nat -> cache w' = cache w) /\
    (forall q0 rest p,
       Question r = q0 :: rest -> cache_peek env w (Name q0) = Some p ->
       cache w' = cache w).
Proof.
  intros Hwf.
  destruct (ServeDNS_Served env s r w Hwf) as (w' & evs & Hrun & HS).
  destruct (Served_cache_frame _ _ _ _ _ _ HS) as (Hd & Hk & Hs & Hc).
  exists w', evs. split; [exact Hrun |].
  split; [eapply Served_trace; eauto |].
  split; [exact Hd |]. split; [exact Hk |]. split; [exact Hs |].
  split; [exact Hc |].
  intros q0 rest p HQ Hpeek.
  destruct HS; try reflexivity.
  rewrite HQ in H. inversion H; subst. congruence.
Qed.

Lemma other_cache_entries_kept_witness :
  wf_world handler0 warmed /\
  exists w' evs,
    ServeDNS env_up handler0 (query 9 "example.org." TypeA) warmed =
      Some (tt, w') /\
    trace w' = trace warmed ++ evs /\
    items (cache w') !! "example.com." = items (cache warmed) !! "example.com.".
Proof.
  split; [exact wf_warmed |].
  destruct (other_cache_entries_kept env_up handler0
              (query 9 "example.org." TypeA) warmed wf_warmed)
    as (w' & evs & Hrun & Ht & _ & Hk & _).
  exists w', evs. split; [exact Hrun |]. split; [exact Ht |].
  apply Hk. reflexivity.
Defined.

(** The upstream's own name is not in the cache after a run if it was not
    before, and the cache is not called for it. *)
Lemma ServedAll_no_host_key env s rs w w' evs :
  ServedAll env s rs w w' evs ->
  items (cache w) !! CLOUDFLARE_DOH_HOST = None ->
  items (cache w') !! CLOUDFLARE_DOH_HOST = None /\
  ~ In (EvCacheGet CLOUDFLARE_DOH_HOST) evs /\
  (forall x, ~ In (EvCacheSet CLOUDFLARE_DOH_HOST x) evs).
Proof.
  induction 1 as [w | r rs w w1 w2 evs1 evs2 HS _ IH]; intros Hnone.
  - repeat split; auto.
  - assert (Hkeys : forall k,
              In (EvCacheGet k) evs1 \/ (exists x, In (EvCacheSet k x) evs1) ->
              k <> CLOUDFLARE_DOH_HOST).
    { intros k Hin. eapply Served_cache_keys; eauto. }
    assert (Hnone1 : items (cache w1) !! CLOUDFLARE_DOH_HOST = None).
    { destruct HS; cbn [cache items]; try exact Hnone.
      rewrite lookup_insert_ne by assumption. exact Hnone. }
    destruct (IH Hnone1) as (Hn2 & Hg2 & Hs2).
    split; [exact Hn2 |]. split.
    + intros Hin. apply in_app_or in Hin. destruct Hin as [Hin | Hin]; [| auto].
      apply (Hkeys CLOUDFLARE_DOH_HOST); auto.
    + intros x Hin. apply in_app_or in Hin. destruct Hin as [Hin | Hin].
      * apply (Hkeys CLOUDFLARE_DOH_HOST); eauto.
      * apply (Hs2 x Hin).
Qed.

(** X4. The upstream's own name never enters the cache: if it has no entry
    before a sequence of queries it has none after, and the cache is
    neither read nor written under that name, whatever the queries. *)
Theorem upstream_name_never_cached
  (env : Env) (s : SecHandler) (rs : list Msg) (w : World) :
  wf_world s w ->
  items (cache w) !! CLOUDFLARE_DOH_HOST = None ->
  exists w' evs,
    serve_all env s rs w = Some (tt, w') /\
    trace w' = trace w ++ evs /\
    items (cache w') !! CLOUDFLARE_DOH_HOST = None /\
    ~ In (EvCacheGet CLOUDFLARE_DOH_HOST) evs /\
    (forall x, ~ In (EvCacheSet CLOUDFLARE_DOH_HOST x) evs).
Proof.
  intros Hwf Hnone.
  destruct (serve_all_ServedAll env s rs w Hwf) as (w' & evs & Hrun & HSA & Ht & _).
  exists w', evs. split; [exact Hrun |]. split; [exact Ht |].
  eapply ServedAll_no_host_key; eauto.
Qed.

Lemma upstream_name_never_cached_witness :
  wf_world handler0 running /\
  items (cache running) !! CLOUDFLARE_DOH_HOST = None /\
  exists w' evs,
    serve_all env_up handler0
      [query 1 CLOUDFLARE_DOH_HOST TypeA; query 2 CLOUDFLARE_DOH_HOST 28]
      running = Some (tt, w') /\
    trace w' = trace running ++ evs /\
    items (cache w') !! CLOUDFLARE_DOH_HOST = None.
Proof.
  split; [exact wf_running |].
  split; [vm_compute; reflexivity |].
  destruct (upstream_name_never_cached env_up handler0
              [query 1 CLOUDFLARE_DOH_HOST TypeA; query 2 CLOUDFLARE_DOH_HOST 28]
              running wf_running)
    as (w' & evs & Hrun & Ht & Hnone & _).
  - vm_compute. reflexivity.
  - exists w', evs. split; [exact Hrun |]. split; [exact Ht | exact Hnone].
Defined.

(** The names of the cache keep stored messages of their own. *)
Lemma Served_distinct env s r w w' evs :
  wf_world s w -> cache_distinct w ->
  Served env s r w w' evs -> cache_distinct w'.
Proof.
  intros [_ Hc] Hd HS.
  destruct HS as
    [h m Hq Hh Hm
    | q0 rest p m HQ HT HN Hpeek Hm
    | q0 rest wire resp m HQ HT HN Hpeek Hf evs
    | q0 rest err HQ HT HN Hpeek Hf evs
    | wire resp m HA Hf evs
    | err HA Hf evs];
    try exact Hd.
  unfold cache_distinct. cbn [cache items].
  intros k1 k2 item1 item2 Hne H1 H2.
  destruct (decide (Name q0 = k1)) as [E1 | N1];
    destruct (decide (Name q0 = k2)) as [E2 | N2].
  - congruence.
  - subst k1. rewrite lookup_insert_eq in H1. inversion H1; subst item1.
    rewrite lookup_insert_ne in H2 by exact N2.
    destruct (Hc _ _ H2) as [Hlt _]. simpl. lia.
  - subst k2. rewrite lookup_insert_eq in H2. inversion H2; subst item2.
    rewrite lookup_insert_ne in H1 by exact N1.
    destruct (Hc _ _ H1) as [Hlt _]. simpl. lia.
  - rewrite lookup_insert_ne in H1 by exact N1.
    rewrite lookup_insert_ne in H2 by exact N2.
    exact (Hd k1 k2 item1 item2 Hne H1 H2).
Qed.

(** One query that does not ask an address for [k] leaves the entry of [k]
    and the message that the entry points to as they are. *)
Lemma Served_other_entry env s r w w' evs k item m :
  wf_world s w -> cache_distinct w ->
  Served env s r w w' evs ->
  asks_A_for k r = false ->
  items (cache w) !! k = Some item ->
  heap w !! Object item = Some m ->
  items (cache w') !! k = Some item /\ heap w' !! Object item = Some m.
Proof.
  intros [_ Hc] Hd HS Hk Hi Hm.
  destruct (Hc _ _ Hi) as [Hlt Hhost].
  destruct (Served_cache_frame _ _ _ _ _ _ HS) as (_ & Hframe & _).
  split; [rewrite (Hframe k Hk); exact Hi |].
  destruct HS as
    [h m0 Hq Hh Hm0
    | q0 rest p m0 HQ HT HN Hpeek Hm0
    | q0 rest wire resp m0 HQ HT HN Hpeek Hf evs
    | q0 rest err HQ HT HN Hpeek Hf evs
    | wire resp m0 HA Hf evs
    | err HA Hf evs];
    cbn [heap]; try (rewrite lookup_app_l by exact Hlt; exact Hm).
  - rewrite list_lookup_insert_ne; [exact Hm |].
    intros ->. apply Hhost. exact Hh.
  - destruct (cache_peek_Some _ _ _ _ Hpeek) as (item0 & Hi0 & Hp).
    rewrite list_lookup_insert_ne; [exact Hm |].
    intros ->.
    apply (Hd (Name q0) k item0 item
             (asks_A_for_first _ _ Hk _ _ HQ HT) Hi0 Hi).
    exact Hp.
Qed.

Lemma ServedAll_other_entry env s rs w w' evs k item m :
  ServedAll env s rs w w' evs ->
  wf_world s w -> cache_distinct w ->
  Forall (fun r => asks_A_for k r = false) rs ->
  items (cache w) !! k = Some item ->
  heap w !! Object item = Some m ->
  items (cache w') !! k = Some item /\ heap w' !! Object item = Some m /\
  cache_distinct w'.
Proof.
  induction 1 as [w | r rs w w1 w2 evs1 evs2 HS _ IH];
    intros Hwf Hd Hall Hi Hm; [auto |].
  inversion Hall as [| ? ? Hr Hrs]; subst.
  destruct (Served_other_entry _ _ _ _ _ _ _ _ _ Hwf Hd HS Hr Hi Hm) as [Hi1 Hm1].
  apply IH; auto.
  - eapply Served_wf; eauto.
  - eapply Served_distinct; eauto.
Qed.

(** X5. Cached names do not share messages: in a world where no two names
    of the cache point to the same stored message, any sequence of queries
    none of which asks an address for [k] leaves the entry of [k], its
    expiration included, and the message cached for [k] exactly as they
    were, and still no two names share a message. *)
Theorem cached_message_untouched_by_other_names
  (env : Env) (s : SecHandler) (rs : list Msg) (w : World)
  (k : string) (item : Item) (m : Msg) :
  wf_world s w -> cache_distinct w ->
  Forall (fun r => asks_A_for k r = false) rs ->
  items (cache w) !! k = Some item ->
  heap w !! Object item = Some m ->
  exists w',
    serve_all env s rs w = Some (tt, w') /\
    items (cache w') !! k = Some item /\
    heap w' !! Object item = Some m /\
    cache_distinct w'.
Proof.
  intros Hwf Hd Hall Hi Hm.
  destruct (serve_all_ServedAll env s rs w Hwf) as (w' & evs & Hrun & HSA & _).
  exists w'. split; [exact Hrun |].
  eapply ServedAll_other_entry; eauto.
Qed.

Lemma cache_distinct_running : cache_distinct running.
Proof.
  intros k1 k2 item1 item2 _ H1 _.
  change (items (cache running)) with (∅ : gmap string Item) in H1.
  rewrite lookup_empty in H1. discriminate.
Qed.

Lemma cache_distinct_warmed : cache_distinct warmed.
Proof.
  destruct (ServeDNS_Served env_up handler0
              (query 7 "example.com." TypeA) running wf_running)
    as (w' & evs & Hrun & HS).
  unfold warmed. rewrite Hrun.
  eapply Served_distinct; eauto using wf_running, cache_distinct_running.
Qed.

Lemma cached_message_untouched_by_other_names_witness :
  wf_world handler0 warmed /\ cache_distinct warmed /\
  exists w',
    serve_all env_up handler0
      [query 1 "example.org." TypeA; query 2 "example.org." TypeA;
       query 3 CLOUDFLARE_DOH_HOST TypeA; query 4 "example.com." 28]
      warmed = Some (tt, w') /\
    items (cache w') !! "example.com." = Some (mkItem 2%nat 3600000000000) /\
    heap w' !! 2%nat =
      Some (SetReply example_reply (query 7 "example.com." TypeA)).
Proof.
  split; [exact wf_warmed |]. split; [exact cache_distinct_warmed |].
  destruct (cached_message_untouched_by_other_names env_up handler0
              [query 1 "example.org." TypeA; query 2 "example.org." TypeA;
               query 3 CLOUDFLARE_DOH_HOST TypeA; query 4 "example.com." 28]
              warmed "example.com." (mkItem 2%nat 3600000000000)
              (SetReply example_reply (query 7 "example.com." TypeA))
              wf_warmed cache_distinct_warmed)
    as (w' & Hrun & Hi & Hm & _).
  - repeat constructor.
  - vm_compute. reflexivity.
  - vm_compute. reflexivity.
  - exists w'. split; [exact Hrun |]. split; [exact Hi | exact Hm].
Defined.

(** An A-type query for another name than the upstream's, when the cache
    has no live entry for it, is encoded for the upstream right after the
    cache was read. *)
Lemma miss_is_forwarded env s r w q0 rest :
  Question r = q0 :: rest -> Qtype q0 = TypeA ->
  Name q0 <> CLOUDFLARE_DOH_HOST ->
  cache_peek env w (Name q0) = None ->
  exists w' evs,
    ServeDNS env s r w = Some (tt, w') /\
    trace w' = trace w ++ EvCacheGet (Name q0) :: EvPack r :: evs.
Proof.
  intros HQ HT HN Hpeek.
  destruct (forward_events_head env r (posts w)) as [tl Htl].
  destruct (forward_result_cases env r w) as [(wire & resp & m & Hf) | [err Hf]].
  - pose proof (served_miss env s r w q0 rest wire resp m HQ HT HN Hpeek Hf) as HS.
    cbv zeta in HS. rewrite Htl in HS.
    eexists _, _. split; [exact (Served_run _ _ _ _ _ _ HS) |]. reflexivity.
  - pose proof (served_miss_failed env s r w q0 rest err HQ HT HN Hpeek Hf) as HS.
    cbv zeta in HS. rewrite Htl in HS.
    eexists _, _. split; [exact (Served_run _ _ _ _ _ _ HS) |]. reflexivity.
Qed.

(** X6. The cache of [RunDNS] keeps an answer for one hour from its write.
    With the default expiration of one hour, a forwarded A-type reply is
    stored with the expiration "clock reading at the write + 1 h"; a later
    A-type query for the name, while that entry is in the cache, is
    answered from it without any upstream call as long as the clock at the
    lookup is not past the expiration, and is forwarded again once it
    is. *)
Theorem cache_entry_expires_after_one_hour
  (env : Env) (s : SecHandler) (r : Msg) (w : World)
  (q0 : DnsQuestion) (rest : list DnsQuestion)
  (wire : bytes) (status : string) (resp : bytes) (m : Msg) :
  defaultExpiration (cache w) = 1 * Hour ->
  Question r = q0 :: rest -> Qtype q0 = TypeA ->
  Name q0 <> CLOUDFLARE_DOH_HOST ->
  cache_peek env w (Name q0) = None ->
  env_Pack env r = inl wire ->
  env_Post env (posts w) = PostDone 200 status (ReadOk resp) ->
  env_Unpack env resp = inl m ->
  0 <= env_Now env (ticks_after_get w (Name q0)) ->
  exists w' item,
    ServeDNS env s r w = Some (tt, w') /\
    items (cache w') !! Name q0 = Some item /\
    Expiration item = env_Now env (ticks_after_get w (Name q0)) + 3600000000000 /\
    forall r2 q2 rest2 w2 m2,
      Question r2 = q2 :: rest2 -> Qtype q2 = TypeA -> Name q2 = Name q0 ->
      items (cache w2) !! Name q0 = Some item ->
      heap w2 !! Object item = Some m2 ->
      (env_Now env (ticks w2) <= Expiration item ->
       exists w3,
         ServeDNS env s r2 w2 = Some (tt, w3) /\
         trace w3 =
           trace w2 ++ [EvCacheGet (Name q0); EvWriteMsg (SetReply m2 r2)]) /\
      (Expiration item < env_Now env (ticks w2) ->
       exists w3 evs,
         ServeDNS env s r2 w2 = Some (tt, w3) /\
         trace w3 = trace w2 ++ EvCacheGet (Name q0) :: EvPack r2 :: evs).
Proof.
  intros Hde HQ HT HN Hpeek Hp Hpost Hu Hnow.
  pose proof (forwarded_ok env r (posts w) _ _ _ _ Hp Hpost Hu) as Hf.
  pose proof (served_miss env s r w q0 rest wire resp m HQ HT HN Hpeek Hf) as HS.
  cbv zeta in HS.
  eexists _, _. split; [exact (Served_run _ _ _ _ _ _ HS) |].
  cbn [cache items]. split; [apply lookup_insert_eq |].
  assert (Hexp : expiration_at env (cache w) (ticks_after_get w (Name q0)) =
                 env_Now env (ticks_after_get w (Name q0)) + 3600000000000).
  { unfold expiration_at. rewrite Hde. reflexivity. }
  cbn [Expiration Object]. split; [exact Hexp |].
  intros r2 q2 rest2 w2 m2 HQ2 HT2 Hsame Hi2 Hm2.
  assert (HN2 : Name q2 <> CLOUDFLARE_DOH_HOST) by congruence.
  rewrite Hexp.
  set (e := env_Now env (ticks_after_get w (Name q0)) + 3600000000000) in *.
  assert (Hpos : (0 <? e) = true) by (apply Z.ltb_lt; unfold e; lia).
  split.
  - intros Hlive.
    assert (Hpeek2 : cache_peek env w2 (Name q2) = Some (length (heap w))).
    { unfold cache_peek. rewrite Hsame, Hi2. cbn [Expiration Object].
      rewrite Hexp. fold e. rewrite Hpos.
      replace (e <? env_Now env (ticks w2)) with false
        by (symmetry; apply Z.ltb_ge; exact Hlive).
      reflexivity. }
    pose proof (served_hit env s r2 w2 q2 rest2 _ m2 HQ2 HT2 HN2 Hpeek2 Hm2) as HS2.
    eexists. split; [exact (Served_run _ _ _ _ _ _ HS2) |].
    cbn [trace]. rewrite Hsame. reflexivity.
  - intros Hdead.
    assert (Hpeek2 : cache_peek env w2 (Name q2) = None).
    { unfold cache_peek. rewrite Hsame, Hi2. cbn [Expiration Object].
      rewrite Hexp. fold e. rewrite Hpos.
      replace (e <? env_Now env (ticks w2)) with true
        by (symmetry; apply Z.ltb_lt; exact Hdead).
      reflexivity. }
    destruct (miss_is_forwarded env s r2 w2 q2 rest2 HQ2 HT2 HN2 Hpeek2)
      as (w3 & evs & Hrun & Ht).
    exists w3, evs. split; [exact Hrun |]. rewrite Ht, Hsame. reflexivity.
Qed.

Lemma cache_entry_expires_after_one_hour_witness :
  defaultExpiration (cache running) = 1 * Hour /\
  cache_peek env_slow running "example.com." = None /\
  exists w' item,
    ServeDNS env_slow handler0 (query 7 "example.com." TypeA) running =
      Some (tt, w') /\
    items (cache w') !! "example.com." = Some item /\
    Expiration item = 3600000000000.
Proof.
  split; [vm_compute; reflexivity |].
  split; [vm_compute; reflexivity |].
  destruct (cache_entry_expires_after_one_hour env_slow handler0
              (query 7 "example.com." TypeA) running
              (mkQuestion "example.com." TypeA ClassINET) []
              [x03] "200 OK" [x00] example_reply)
    as (w' & item & Hrun & Hi & He & _).
  - vm_compute. reflexivity.
  - reflexivity.
  - reflexivity.
  - discriminate.
  - vm_compute. reflexivity.
  - reflexivity.
  - reflexivity.
  - reflexivity.
  - vm_compute. discriminate.
  - exists w', item. split; [exact Hrun |]. split; [exact Hi |].
    rewrite He. vm_compute. reflexivity.
Defined.

(** A forward that fails in [w] fails in every world with as many POSTs
    made and as many messages stored. *)
Lemma QueryOverHTTPS_failed env r w err w1 :
  QueryOverHTTPS env r w = Some ((None, Some err), w1) ->
  forward_result env r w = (None, Some err).
Proof.
  rewrite QueryOverHTTPS_eq. intros H. inversion H. reflexivity.
Qed.

(** X7. When the forward of a query fails, at whatever stage, the
    requester gets the server-failure reply for its query (its identifier
    and first question, response code 2), the cache is exactly as before,
    so that an expired entry for the name stays where it is, and every
    message stored before is unchanged.  The error is one of the three
    fixed errors of [QueryOverHTTPS]; on the A-type branch the log gets the
    requested name and that error. *)
Theorem failed_forward_keeps_cache
  (env : Env) (s : SecHandler) (r : Msg) (w w1 : World) (err : error) :
  QueryOverHTTPS env r w = Some ((None, Some err), w1) ->
  is_forwarded_query env r w ->
  exists w' evs,
    ServeDNS env s r w = Some (tt, w') /\
    trace w' = trace w ++ evs ++ [EvWriteMsg (servfail r)] /\
    written evs = [] /\
    is_reply_to r (servfail r) /\ Rcode (servfail r) = RcodeServerFailure /\
    Answer (servfail r) = [] /\
    cache w' = cache w /\
    (forall a m, heap w !! a = Some m -> heap w' !! a = Some m) /\
    (err = pack_error \/ err = transport_error \/ err = unpack_error) /\
    (forall q0 rest, Question r = q0 :: rest -> Qtype q0 = TypeA ->
       exists evs0,
         evs = evs0 ++ [EvPrintf ("requested name = " +:+ Name q0);
                        EvErrorLog err]).
Proof.
  intros Hq Hfw.
  pose proof (QueryOverHTTPS_failed _ _ _ _ _ Hq) as Hf.
  destruct (forward_result_failed _ _ _ _ Hf) as [_ Herr].
  destruct Hfw as [HA | (q0 & rest & HQ & HT & HN & Hpeek)].
  - pose proof (served_relay_failed env s r w err HA Hf) as HS.
    cbv zeta in HS.
    eexists. exists (forward_events env r (posts w)).
    split; [exact (Served_run _ _ _ _ _ _ HS) |].
    split; [reflexivity |].
    split; [apply written_forward_events |].
    split; [apply is_reply_to_servfail |].
    split; [reflexivity |]. split; [reflexivity |]. split; [reflexivity |].
    split.
    { intros a m Hm. cbn [heap]. rewrite lookup_app_l; [exact Hm |].
      eapply lookup_lt_Some; eauto. }
    split; [exact Herr |].
    intros q0 rest HQ HT. unfold first_question_is_A in HA.
    rewrite HQ in HA. apply Z.eqb_neq in HA. contradiction.
  - pose proof (served_miss_failed env s r w q0 rest err HQ HT HN Hpeek Hf)
      as HS.
    cbv zeta in HS.
    eexists. exists (EvCacheGet (Name q0) :: forward_events env r (posts w) ++
               [EvPrintf ("requested name = " +:+ Name q0); EvErrorLog err]).
    split; [exact (Served_run _ _ _ _ _ _ HS) |].
    split.
    { cbn [trace]. f_equal. rewrite <- app_comm_cons, <- app_assoc. reflexivity. }
    split.
    { cbn [written]. rewrite written_app, written_forward_events. reflexivity. }
    split; [apply is_reply_to_servfail |].
    split; [reflexivity |]. split; [reflexivity |]. split; [reflexivity |].
    split.
    { intros a m0 Hm. cbn [heap]. rewrite lookup_app_l; [exact Hm |].
      eapply lookup_lt_Some; eauto. }
    split; [exact Herr |].
    intros q0' rest' HQ' _. rewrite HQ in HQ'. inversion HQ'; subst q0' rest'.
    exists (EvCacheGet (Name q0) :: forward_events env r (posts w)).
    reflexivity.
Qed.

Lemma failed_forward_keeps_cache_witness :
  cache_peek env_stale warmed "example.com." = None /\
  items (cache warmed) !! "example.com." = Some (mkItem 2%nat 3600000000000) /\
  exists w' evs,
    ServeDNS env_stale handler0 (query 7 "example.com." TypeA) warmed =
      Some (tt, w') /\
    trace w' =
      trace warmed ++ evs ++
      [EvWriteMsg (servfail (query 7 "example.com." TypeA))] /\
    cache w' = cache warmed.
Proof.
  split; [vm_compute; reflexivity |].
  split; [vm_compute; reflexivity |].
  assert (Hq : exists w1,
            QueryOverHTTPS env_stale (query 7 "example.com." TypeA) warmed =
              Some ((None, Some transport_error), w1))
    by (eexists; vm_compute; reflexivity).
  destruct Hq as [w1 Hq].
  destruct (failed_forward_keeps_cache env_stale handler0
              (query 7 "example.com." TypeA) warmed w1 transport_error Hq)
    as (w' & evs & Hrun & Ht & _ & _ & _ & _ & Hc & _).
  - right. exists (mkQuestion "example.com." TypeA ClassINET), [].
    split; [reflexivity |]. split; [reflexivity |].
    split; [discriminate | vm_compute; reflexivity].
  - exists w', evs. split; [exact Hrun |]. split; [exact Ht | exact Hc].
Defined.

(** ** Further properties of the forwarder and the transport *)

(** X8. [QueryOverHTTPS] returns a reply or an error, never both and never
    neither; a reply is a newly stored message, no message stored before;
    it calls nothing but the codec and the transport, at most once each,
    and leaves the cache, the clock and every stored message alone. *)
Theorem QueryOverHTTPS_frame (env : Env) (r : Msg) (w : World) :
  exists res w' evs,
    QueryOverHTTPS env r w = Some (res, w') /\
    trace w' = trace w ++ evs /\
    Forall (fun e => is_forward_ev e = true) evs /\
    count_ev is_pack evs = 1%nat /\
    (count_ev is_post evs <= 1)%nat /\
    (count_ev is_unpack evs <= count_ev is_post evs)%nat /\
    cache w' = cache w /\ ticks w' = ticks w /\ exchanges w' = exchanges w /\
    (forall a m, heap w !! a = Some m -> heap w' !! a = Some m) /\
    ((exists p, res = (Some p, None) /\ heap w !! p = None /\
                is_Some (heap w' !! p)) \/
     (exists err, res = (None, Some err))).
Proof.
  rewrite QueryOverHTTPS_eq.
  eexists _, _, (forward_events env r (posts w)).
  split; [reflexivity |]. cbn [trace cache ticks exchanges heap].
  split; [reflexivity |].
  split; [apply forward_events_kind |].
  split; [apply forward_events_pack |].
  split; [rewrite forward_events_post; destruct (env_Pack env r); lia |].
  split; [apply forward_events_unpack |].
  split; [reflexivity |]. split; [reflexivity |]. split; [reflexivity |].
  split.
  { intros a m Hm. rewrite lookup_app_l; [exact Hm |].
    eapply lookup_lt_Some; eauto. }
  destruct (forward_result_cases env r w) as [(wire & resp & m & Hf) | [err Hf]].
  - left. destruct (forwarded_reply _ _ _ _ _ _ Hf) as (Hc & _ & Hr).
    exists (length (heap w)). rewrite (Hr w eq_refl), Hc.
    split; [reflexivity |].
    split; [apply lookup_ge_None; lia |].
    exists m. apply list_lookup_middle. reflexivity.
  - right. exists err. exact Hf.
Qed.

(** X9. [makeHttpsRequest] returns a body or an error, never both and never
    neither, and a body only for status 200; the response body is closed
    once on every path on which [client.Post] gave a response, also for a
    status other than 200 and for a failed read, and not at all when
    [client.Post] failed; the cache and the stored messages are left
    alone. *)
Theorem makeHttpsRequest_closes_body (env : Env) (wire : bytes) (w : World) :
  exists res w' evs,
    makeHttpsRequest env wire w = Some (res, w') /\
    trace w' = trace w ++ evs /\
    count_ev is_body_close evs =
      match env_Post env (posts w) with
      | PostDone _ _ _ => 1%nat
      | PostFailed _ => 0%nat
      end /\
    ((exists body, res = (Some body, None) /\
        exists status, env_Post env (posts w) = PostDone 200 status (ReadOk body)) \/
     (exists err, res = (None, Some err))) /\
    heap w' = heap w /\ cache w' = cache w /\ ticks w' = ticks w.
Proof.
  rewrite makeHttpsRequest_eq.
  eexists _, _, _. split; [reflexivity |]. cbn [trace heap cache ticks].
  split; [reflexivity |].
  split; [destruct (env_Post env (posts w)); reflexivity |].
  split; [| repeat split].
  destruct (env_Post env (posts w)) as [err | code status body]; simpl.
  - right. eauto.
  - destruct (code =? 200) eqn:Hc.
    + apply Z.eqb_eq in Hc. subst code. destruct body; [left | right]; eauto.
    + right. eauto.
Qed.

(** ** Further properties of the bootstrap *)

(** X10. [getDohHostAddr] makes one plain DNS exchange with the fixed
    resolver and nothing else: the question sent is the one A-type, class
    INET question for the upstream's name, with recursion desired; a reply
    comes back as a newly stored message, an error comes back as it is;
    no POST is made and the cache and the stored messages are left
    alone. *)
Theorem getDohHostAddr_asks_once (env : Env) (w : World) :
  exists res w' q,
    getDohHostAddr env w = Some (res, w') /\
    trace w' = trace w ++ [EvExchange q CLOUDFLARE_DNS] /\
    Question q = [mkQuestion CLOUDFLARE_DOH_HOST TypeA ClassINET] /\
    RecursionDesired q = true /\ Response q = false /\
    Id q = env_Id env (exchanges w) /\
    Answer q = [] /\ Ns q = [] /\ Extra q = [] /\
    exchanges w' = S (exchanges w) /\
    posts w' = posts w /\ cache w' = cache w /\
    (forall a m, heap w !! a = Some m -> heap w' !! a = Some m) /\
    match env_Exchange env (exchanges w) with
    | inl reply =>
        exists p, res = (Some p, None) /\ heap w !! p = None /\
                  heap w' !! p = Some reply
    | inr err => res = (None, Some err)
    end.
Proof.
  rewrite getDohHostAddr_eq.
  destruct (env_Exchange env (exchanges w)) as [reply | err];
    eexists _, _, _; (split; [reflexivity |]);
    cbn [trace heap cache posts exchanges];
    (split; [reflexivity |]); repeat (split; [reflexivity |]).
  - split.
    { intros a m Hm. rewrite lookup_app_l; [exact Hm |].
      eapply lookup_lt_Some; eauto. }
    exists (S (length (heap w))). split; [reflexivity |].
    split; [apply lookup_ge_None; lia |].
    rewrite lookup_app_r by lia.
    replace (S (length (heap w)) - length (heap w))%nat with 1%nat by lia.
    reflexivity.
  - split; [| reflexivity].
    intros a m Hm. rewrite lookup_app_l; [exact Hm |].
    eapply lookup_lt_Some; eauto.
Qed.

(** X11. [RunDNS] takes the reply of the plain DNS exchange as it is: it
    looks at the error alone, not at the response code or the records of
    the reply.  Whatever the reply of the first successful attempt, the
    server is started with it, and a later A-type query for the upstream's
    name is answered with the records of that reply, none if it has none,
    under the response code of success. *)
Theorem bootstrap_reply_not_validated
  (env : Env) (port : Z) (w : World) (k : nat) (reply r : Msg) :
  (k <= 5)%nat ->
  attempts_fail env (exchanges w) k ->
  env_Exchange env (exchanges w + k) = inl reply ->
  first_question_is_host_A r = true ->
  exists srv w1 w2,
    RunDNS env port w = Some ((Some srv, None), w1) /\
    ServeDNS env (Handler srv) r w1 = Some (tt, w2) /\
    trace w2 = trace w1 ++ [EvWriteMsg (SetReply reply r)] /\
    Answer (SetReply reply r) = Answer reply /\
    Ns (SetReply reply r) = Ns reply /\
    Extra (SetReply reply r) = Extra reply /\
    Rcode (SetReply reply r) = RcodeSuccess.
Proof.
  intros Hk Hfail Hok Hq.
  destruct (RunDNS_cases env port w) as [Hcases _].
  destruct (Hcases k reply Hk Hfail Hok)
    as (srv & p & w1 & evs & Hrun & Hsrv & Hp & _).
  assert (Hh : Host (Handler srv) = Some p) by (rewrite Hsrv; reflexivity).
  pose proof (served_host env (Handler srv) r w1 p reply Hq Hh Hp) as HS.
  eexists srv, w1, _. split; [exact Hrun |].
  split; [exact (Served_run _ _ _ _ _ _ HS) |].
  repeat split.
Qed.

Lemma bootstrap_reply_not_validated_witness :
  Rcode empty_host_reply = RcodeServerFailure /\ Answer empty_host_reply = [] /\
  exists srv w1 w2 out,
    RunDNS env_no_address 53 world0 = Some ((Some srv, None), w1) /\
    ServeDNS env_no_address (Handler srv)
      (query 7 CLOUDFLARE_DOH_HOST TypeA) w1 = Some (tt, w2) /\
    trace w2 = trace w1 ++ [EvWriteMsg out] /\
    Answer out = [] /\ Rcode out = RcodeSuccess.
Proof.
  split; [reflexivity |]. split; [reflexivity |].
  destruct (bootstrap_reply_not_validated env_no_address 53 world0 0%nat
              empty_host_reply (query 7 CLOUDFLARE_DOH_HOST TypeA))
    as (srv & w1 & w2 & Hrun & Hserve & Ht & Ha & _ & _ & Hr).
  - lia.
  - intros j Hj. lia.
  - reflexivity.
  - reflexivity.
  - exists srv, w1, w2, (SetReply empty_host_reply (query 7 CLOUDFLARE_DOH_HOST TypeA)).
    split; [exact Hrun |]. split; [exact Hserve |]. split; [exact Ht |].
    split; [exact Ha | exact Hr].
Defined.

Lemma exchange_error_eq env n err :
  env_Exchange env n = inr err -> exchange_error env n = err.
Proof. unfold exchange_error. intros ->. reflexivity. Qed.

(** The trace of the loop when every remaining attempt fails. *)
Lemma retry_loop_failed_trace env n :
  forall fuel i h e w,
    i = 6 - Z.of_nat n -> (n <= fuel)%nat ->
    attempts_fail env (exchanges w) n ->
    exists res w',
      retry_loop env fuel i h e w = Some (res, w') /\
      trace w' = trace w ++ failed_retries env i (exchanges w) n.
Proof.
  induction n as [| n IH]; intros fuel i h e w Hi Hfuel Hfail.
  - exists (h, e), w. simpl in Hi. subst i.
    destruct fuel; simpl; rewrite app_nil_r; split; reflexivity.
  - destruct fuel as [| fuel]; [lia |].
    destruct (attempts_fail_S _ _ _ Hfail) as [[err He] Hrest].
    simpl retry_loop.
    replace (i <? 6) with true by (symmetry; apply Z.ltb_lt; lia).
    unfold time_Sleep, log_Printf, WriteErrorLogMsg.
    unfold bind at 1. unfold emit at 1.
    unfold bind at 1. unfold emit at 1.
    unfold bind at 1. rewrite getDohHostAddr_eq. simpl. rewrite He. simpl.
    unfold bind at 1. unfold emit at 1. simpl.
    edestruct (IH fuel (i + 1) None (Some err)) as (res & w' & Hrun & Ht);
      [| | | rewrite Hrun]; [lia | lia | exact Hrest |].
    simpl in Ht.
    exists res, w'. split; [reflexivity |].
    rewrite Ht. cbn [failed_retries]. unfold before_retry, failed_attempt.
    rewrite (exchange_error_eq _ _ _ He).
    rewrite <- !app_assoc. reflexivity.
Qed.

(** The trace of the loop when the attempt after [k] failures succeeds. *)
Lemma retry_loop_success_trace env k :
  forall fuel i h e w reply,
    i + Z.of_nat k < 6 -> (k < fuel)%nat ->
    attempts_fail env (exchanges w) k ->
    env_Exchange env (exchanges w + k) = inl reply ->
    exists res w',
      retry_loop env fuel i h e w = Some (res, w') /\
      trace w' =
        trace w ++ failed_retries env i (exchanges w) k ++
        before_retry (i + Z.of_nat k) ++
        [EvExchange (bootstrap_query env (exchanges w + k)) CLOUDFLARE_DNS].
Proof.
  induction k as [| k IH]; intros fuel i h e w reply Hi Hfuel Hfail Hok;
    (destruct fuel as [| fuel]; [lia |]);
    simpl retry_loop;
    replace (i <? 6) with true by (symmetry; apply Z.ltb_lt; lia);
    unfold time_Sleep, log_Printf, WriteErrorLogMsg;
    unfold bind at 1; unfold emit at 1;
    unfold bind at 1; unfold emit at 1;
    unfold bind at 1; rewrite getDohHostAddr_eq; simpl.
  - rewrite Nat.add_0_r in Hok |- *. rewrite Hok. simpl.
    eexists _, _. split; [reflexivity |]. simpl.
    rewrite Z.add_0_r, <- !app_assoc. reflexivity.
  - destruct (attempts_fail_S _ _ _ Hfail) as [[err He] Hrest].
    rewrite He. simpl.
    unfold bind at 1. unfold emit at 1. simpl.
    edestruct (IH fuel (i + 1) None (Some err)) as (res & w' & Hrun & Ht);
      [| | | | rewrite Hrun]; [lia | lia | exact Hrest | |].
    { simpl. replace (S (exchanges w + k)) with (exchanges w + S k)%nat by lia.
      exact Hok. }
    simpl in Ht.
    exists res, w'. split; [reflexivity |].
    rewrite Ht. cbn [failed_retries]. unfold before_retry, failed_attempt.
    rewrite (exchange_error_eq _ _ _ He).
    replace (S (exchanges w + k)) with (exchanges w + S k)%nat by lia.
    replace (i + 1 + Z.of_nat k) with (i + Z.of_nat (S k)) by lia.
    rewrite <- !app_assoc. reflexivity.
Qed.

Lemma failed_retries_logged env i n k :
  count_ev is_error_log (failed_retries env i n k) = k /\
  count_ev is_sleep (failed_retries env i n k) = k.
Proof.
  revert i n. induction k as [| k IH]; intros i n; [split; reflexivity |].
  destruct (IH (i + 1) (S n)) as [H1 H2].
  cbn [failed_retries]. unfold before_retry, failed_attempt.
  rewrite !count_ev_app, H1, H2. split; reflexivity.
Qed.

(** X12. The whole trace of the bootstrap.  Every failed attempt is
    followed by one line for the error log that carries the error of that
    attempt; every retry is preceded by a sleep of one second and the line
    "retry i...", with [i] counting from 1; the attempt that succeeds is
    followed at once by the making of the cache (one hour, cleaned every
    ten minutes) and the start of the listener.  When six attempts fail the
    trace ends with the sixth line for the error log. *)
Theorem RunDNS_exact_trace (env : Env) (port : Z) (w : World) :
  (forall k reply,
     (k <= 5)%nat ->
     attempts_fail env (exchanges w) k ->
     env_Exchange env (exchanges w + k) = inl reply ->
     exists srv w',
       RunDNS env port w = Some ((Some srv, None), w') /\
       trace w' =
         trace w ++ bootstrap_trace env (exchanges w) k ++
         [EvCacheNew (1 * Hour) (10 * Minute);
          EvListenAndServe srv] /\
       count_ev is_error_log (bootstrap_trace env (exchanges w) k) = k) /\
  (attempts_fail env (exchanges w) 6 ->
   exists w',
     RunDNS env port w = Some ((None, Some could_not_start), w') /\
     trace w' =
       trace w ++ failed_attempt env (exchanges w) ++
       failed_retries env 1 (S (exchanges w)) 5 /\
     count_ev is_error_log
       (failed_attempt env (exchanges w) ++
        failed_retries env 1 (S (exchanges w)) 5) = 6%nat).
Proof.
  split.
  - intros k reply Hk Hfail Hok.
    unfold RunDNS. unfold bind at 1. rewrite getDohHostAddr_eq.
    destruct k as [| k].
    + rewrite Nat.add_0_r in Hok. rewrite Hok. simpl.
      rewrite start_server_eq. simpl.
      eexists _, _. split; [reflexivity |].
      cbn [trace]. split; [rewrite <- !app_assoc; reflexivity | reflexivity].
    + destruct (attempts_fail_S _ _ _ Hfail) as [[err He] Hrest].
      rewrite He. cbn [fst snd].
      unfold WriteErrorLogMsg. unfold bind at 1. unfold emit at 1.
      cbn [trace set_trace heap cache ticks posts exchanges].
      unfold bind at 1.
      assert (Hok' : env_Exchange env (S (exchanges w) + k) = inl reply).
      { replace (S (exchanges w) + k)%nat with (exchanges w + S k)%nat by lia.
        exact Hok. }
      match goal with
      | |- context [retry_loop env 5 1 None (Some err) ?w0] => set (wl := w0)
      end.
      destruct (retry_loop_succeeds env k 5%nat 1 None (Some err) wl reply
                  ltac:(lia) ltac:(lia) Hrest Hok')
        as (p & w1 & evs & Hrun & _).
      destruct (retry_loop_success_trace env k 5%nat 1 None (Some err) wl reply
                  ltac:(lia) ltac:(lia) Hrest Hok')
        as (res & w1' & Hrun' & Ht).
      rewrite Hrun in Hrun'. inversion Hrun'; subst res w1'. clear Hrun'.
      rewrite Hrun. cbn [fst snd]. rewrite start_server_eq. cbv zeta.
      eexists _, _. split; [reflexivity |].
      cbn [trace] in Ht |- *. split.
      * rewrite Ht. unfold wl. cbn [trace set_trace exchanges].
        unfold bootstrap_trace, failed_attempt.
        rewrite (exchange_error_eq _ _ _ He).
        replace (1 + Z.of_nat k) with (Z.of_nat (S k)) by lia.
        replace (S (exchanges w) + k)%nat with (exchanges w + S k)%nat by lia.
        rewrite <- !app_assoc. reflexivity.
      * unfold bootstrap_trace, failed_attempt, before_retry.
        rewrite !count_ev_app.
        destruct (failed_retries_logged env 1 (S (exchanges w)) k) as [Hl _].
        rewrite Hl. simpl. lia.
  - intros Hfail.
    unfold RunDNS. unfold bind at 1. rewrite getDohHostAddr_eq.
    destruct (attempts_fail_S _ _ _ Hfail) as [[err He] Hrest].
    rewrite He. cbn [fst snd].
    unfold WriteErrorLogMsg. unfold bind at 1. unfold emit at 1.
    cbn [trace set_trace heap cache ticks posts exchanges].
    unfold bind at 1.
    match goal with
    | |- context [retry_loop env 5 1 None (Some err) ?w0] => set (wl := w0)
    end.
    destruct (retry_loop_exhausted env 5%nat 5%nat 1 None (Some err) wl
                eq_refl ltac:(lia) Hrest)
      as (h' & e' & w1 & evs & Hrun & Hs & _).
    destruct (retry_loop_failed_trace env 5%nat 5%nat 1 None (Some err) wl
                eq_refl ltac:(lia) Hrest)
      as (res & w1' & Hrun' & Ht).
    rewrite Hrun in Hrun'. inversion Hrun'; subst res w1'. clear Hrun'.
    rewrite Hrun. destruct (Hs ltac:(lia)) as [err' ->]. cbn [fst snd].
    eexists. split; [reflexivity |].
    cbn [trace] in Ht. split.
    + rewrite Ht. unfold wl. cbn [trace set_trace exchanges].
      unfold failed_attempt.
      rewrite (exchange_error_eq _ _ _ He).
      rewrite <- !app_assoc. reflexivity.
    + rewrite count_ev_app.
      destruct (failed_retries_logged env 1 (S (exchanges w)) 5) as [Hl _].
      rewrite Hl. reflexivity.
Qed.

Lemma RunDNS_exact_trace_witness :
  exists w',
    RunDNS env_down 53 world0 = Some ((None, Some could_not_start), w') /\
    map (fun e => match e with EvPrintf line => line | _ => EmptyString end)
        (List.filter (fun e => match e with EvPrintf _ => true | _ => false end)
           (trace w')) =
      ["retry 1..."; "retry 2..."; "retry 3..."; "retry 4..."; "retry 5..."].
Proof.
  destruct (RunDNS_exact_trace env_down 53 world0) as [_ Hko].
  destruct Hko as (w' & Hrun & Ht & _).
  - intros j Hj. exists (LibError "read udp: i/o timeout"). reflexivity.
  - exists w'. split; [exact Hrun |]. rewrite Ht. vm_compute. reflexivity.
Defined.

(** X13. After a start that succeeds, the stop function shuts down the
    server that was started, the one bound to the given port over UDP, and
    returns what [Shutdown] returns: its other branch, the error "No DNS
    server instance.", cannot be taken.  A start that fails returns no
    stop function and has started no listener. *)
Theorem stop_shuts_down_started_server
  (env : Env) (port : Z) (w : World)
  (stop : option Server) (err : option error) (w' : World)
  (shutdown : Server -> option error) :
  RunDNS env port w = Some ((stop, err), w') ->
  (err = None ->
   exists srv,
     stop = Some srv /\ SvrStop stop shutdown = shutdown srv /\
     Addr srv = ":" +:+ pretty port /\ Net srv = "udp" /\
     In (EvListenAndServe srv) (trace w')) /\
  (err <> None ->
   stop = None /\ err = Some could_not_start /\
   exists evs, trace w' = trace w ++ evs /\ count_ev is_listen evs = 0%nat).
Proof.
  intros Hrun.
  destruct (RunDNS_cases env port w) as [Hok Hko].
  destruct (attempts_dec env (exchanges w) 6)
    as [Hall | (k & reply & Hk & Hfail & Hreply)].
  - destruct (Hko Hall) as (w1 & evs & Hrun1 & Ht & Hcnt & _).
    rewrite Hrun in Hrun1. inversion Hrun1; subst stop err w1.
    split; [discriminate |]. intros _.
    split; [reflexivity |]. split; [reflexivity |].
    exists evs. split; [exact Ht |]. apply Hcnt.
  - destruct (Hok k reply ltac:(lia) Hfail Hreply)
      as (srv & p & w1 & evs & Hrun1 & Hsrv & _ & Ht & _).
    rewrite Hrun in Hrun1. inversion Hrun1; subst stop err w1.
    split; [| congruence]. intros _.
    exists srv. split; [reflexivity |]. split; [reflexivity |].
    rewrite Hsrv at 1 2. split; [reflexivity |]. split; [reflexivity |].
    rewrite Ht. apply in_or_app. right. apply in_or_app. right.
    right. left. reflexivity.
Qed.

Lemma stop_shuts_down_started_server_witness :
  exists srv,
    SvrStop (Some srv) (fun _ => None) = None /\
    Addr srv = ":53" /\ In (EvListenAndServe srv) (trace running).
Proof.
  destruct (stop_shuts_down_started_server env_up 53 world0
              (Some (mkServer ":53" "udp" handler0)) None running
              (fun _ => None) RunDNS_running) as [Hok _].
  destruct (Hok eq_refl) as (srv & Hs & Hstop & Ha & _ & Hin).
  exists srv. split; [| split; [exact Ha | exact Hin]].
  inversion Hs; subst srv. reflexivity.
Defined.
